(** * The Items CRUD handler (lambda/ensyu-lambda-function.py)

    A shallow embedding of the request handler: Python values as an
    inductive type, the handler as a computation in a state-and-exception
    monad over an abstract table handle, and the properties of the handler
    proved over that embedding.

    Conventions of the model.
    - A Python [str] is a [string] holding its UTF-8 bytes.  ["/"] and the
      ASCII letters are single bytes that never occur inside a multi-byte
      sequence, so splitting on ["/"] and comparing with ASCII literals agree
      with Python's code-point operations.  [upper] and [lower] map the ASCII
      letters only; the few letters outside ASCII that Python maps onto ASCII
      ones (the dotless i, the long s) are left as they are.
    - A Python [dict] is an association list in insertion order with unique
      keys; a JSON document always has string keys.
    - [exn] ranges over the subclasses of [Exception].
    - A Python [float] is kept as an exact decimal (mantissa and exponent),
      so a literal that underflows to zero stays different from zero;
      integers are unbounded.  The limits of the interpreter (recursion
      depth, digits of an integer literal) are not modelled.
    - The [logger] calls have no effect on the result and are left out,
      except for the evaluation of their arguments. *)

From Stdlib Require Import String Ascii List ZArith Bool Lia.
Import ListNotations.
Local Open Scope string_scope.
Local Open Scope Z_scope.

(** ** Strings *)

Module Str.

Definition is_upper (c : ascii) : bool :=
  let n := nat_of_ascii c in (Nat.leb 65 n && Nat.leb n 90)%bool.

Definition is_lower (c : ascii) : bool :=
  let n := nat_of_ascii c in (Nat.leb 97 n && Nat.leb n 122)%bool.

Definition lower_char (c : ascii) : ascii :=
  if is_upper c then ascii_of_nat (nat_of_ascii c + 32) else c.

Definition upper_char (c : ascii) : ascii :=
  if is_lower c then ascii_of_nat (nat_of_ascii c - 32) else c.

Fixpoint map (f : ascii -> ascii) (s : string) : string :=
  match s with
  | EmptyString => EmptyString
  | String c r => String (f c) (map f r)
  end.

(** [s.lower()] and [s.upper()] *)
Definition lower : string -> string := map lower_char.
Definition upper : string -> string := map upper_char.

(** [s.split(sep)] for a one-character separator: the pieces between
    consecutive separators, empty pieces included; never an empty list. *)
Fixpoint split_on (sep : ascii) (s : string) : list string :=
  match s with
  | EmptyString => [EmptyString]
  | String c r =>
      if Ascii.eqb c sep then EmptyString :: split_on sep r
      else match split_on sep r with
           | [] => [String c EmptyString]
           | p :: ps => String c p :: ps
           end
  end.

(** [sep.join(parts)] *)
Fixpoint join (sep : string) (parts : list string) : string :=
  match parts with
  | [] => EmptyString
  | [p] => p
  | p :: ps => p ++ sep ++ join sep ps
  end.

Definition nonempty (s : string) : bool :=
  match s with EmptyString => false | _ => true end.

(** [s.strip(" ")] on both ends, used by the table model. *)
Fixpoint lstrip (s : string) : string :=
  match s with
  | String " " r => lstrip r
  | _ => s
  end.

Fixpoint rev_acc (s acc : string) : string :=
  match s with
  | EmptyString => acc
  | String c r => rev_acc r (String c acc)
  end.

Definition rev (s : string) : string := rev_acc s EmptyString.

Definition strip (s : string) : string := rev (lstrip (rev (lstrip s))).

Fixpoint strip_prefix (p s : string) : option string :=
  match p, s with
  | EmptyString, _ => Some s
  | String a p', String b s' => if Ascii.eqb a b then strip_prefix p' s' else None
  | String _ _, EmptyString => None
  end.

End Str.

(** ** Python values *)

(** A [float]: an exact decimal [m * 10^e], or one of the three special
    values [json.loads] accepts. *)
Inductive pyfloat :=
| FDec (m e : Z)
| FNaN
| FInf (negative : bool).

(** The values that flow through the handler: the JSON types, plus
    [PObject] for any other Python object a collaborator may hand back
    (a [Decimal], a [Binary], a set), with its truth value.  [json.dumps]
    rejects a [PObject]. *)
#[warnings="-register-all"] Inductive pyval :=
| PNone
| PBool (b : bool)
| PInt (z : Z)
| PFloat (f : pyfloat)
| PStr (s : string)
| PList (l : list pyval)
| PDict (d : list (string * pyval))
| PObject (cls : string) (truth : bool).

Definition pydict := list (string * pyval).

(** [bool(v)] *)
Definition truthy (v : pyval) : bool :=
  match v with
  | PNone => false
  | PBool b => b
  | PInt z => negb (z =? 0)
  | PFloat (FDec m _) => negb (m =? 0)
  | PFloat _ => true
  | PStr s => Str.nonempty s
  | PList l => match l with [] => false | _ => true end
  | PDict d => match d with [] => false | _ => true end
  | PObject _ t => t
  end.

(** [a or b] *)
Definition py_or (a b : pyval) : pyval := if truthy a then a else b.

(** [isinstance(v, str)] *)
Definition is_str (v : pyval) : bool :=
  match v with PStr _ => true | _ => false end.

(** ** Dictionaries *)

Fixpoint dict_get (k : string) (d : pydict) : option pyval :=
  match d with
  | [] => None
  | (k', v) :: r => if String.eqb k k' then Some v else dict_get k r
  end.

(** [k in d] *)
Definition dict_mem (k : string) (d : pydict) : bool :=
  match dict_get k d with Some _ => true | None => false end.

(** [d[k] = v]: overwrite in place, or append. *)
Fixpoint dict_set (k : string) (v : pyval) (d : pydict) : pydict :=
  match d with
  | [] => [(k, v)]
  | (k', v') :: r =>
      if String.eqb k k' then (k', v) :: r else (k', v') :: dict_set k v r
  end.

(** [d.get(k, default)] *)
Definition get_default (k : string) (default : pyval) (d : pydict) : pyval :=
  match dict_get k d with Some v => v | None => default end.

(** [d.get(k)] *)
Definition get (k : string) (d : pydict) : pyval := get_default k PNone d.

(** JSON text is written with apostrophes in the examples below;
    [json_text] puts the double quotes back. *)
Definition json_text : string -> string :=
  Str.map (fun c => if Ascii.eqb c "'" then "034"%char else c).

(** ** [json.loads]

    The decoder of the standard library, as far as the handler can observe
    it: [None] stands for [json.JSONDecodeError].  The grammar is the one
    the scanner implements: the four white-space characters, the literals
    [null], [true], [false], [NaN], [Infinity] and [-Infinity], numbers
    (an optional minus, then 0 or a digit sequence without leading zero, an
    optional fraction, an optional exponent), strings in strict mode
    (no raw control character) with the escapes and surrogate pairs, arrays
    and objects without trailing commas; a repeated key keeps its first
    position and its last value. *)

Module Json.

Definition is_ws (c : ascii) : bool :=
  let n := nat_of_ascii c in
  (Nat.eqb n 32 || Nat.eqb n 9 || Nat.eqb n 10 || Nat.eqb n 13)%bool.

Fixpoint skip_ws (s : string) : string :=
  match s with
  | String c r => if is_ws c then skip_ws r else s
  | EmptyString => s
  end.

Definition digit_of (c : ascii) : option Z :=
  let n := nat_of_ascii c in
  if (Nat.leb 48 n && Nat.leb n 57)%bool then Some (Z.of_nat n - 48) else None.

Definition hex_of (c : ascii) : option Z :=
  let n := nat_of_ascii c in
  if (Nat.leb 48 n && Nat.leb n 57)%bool then Some (Z.of_nat n - 48)
  else if (Nat.leb 65 n && Nat.leb n 70)%bool then Some (Z.of_nat n - 55)
  else if (Nat.leb 97 n && Nat.leb n 102)%bool then Some (Z.of_nat n - 87)
  else None.

(** The longest prefix of decimal digits, and what follows it. *)
Fixpoint span_digits (s : string) : list Z * string :=
  match s with
  | String c r =>
      match digit_of c with
      | Some d => let (ds, rest) := span_digits r in (d :: ds, rest)
      | None => ([], s)
      end
  | EmptyString => ([], s)
  end.

Definition digits_value (ds : list Z) : Z :=
  fold_left (fun acc d => 10 * acc + d) ds 0.

(** The integer part: sign, digits, rest. *)
Definition match_integer (s : string) : option (bool * list Z * string) :=
  let (neg, s1) := match s with
                   | String "-" r => (true, r)
                   | _ => (false, s)
                   end in
  match s1 with
  | String "0" r => Some (neg, [0], r)
  | String c _ =>
      match digit_of c with
      | Some _ => let (ds, rest) := span_digits s1 in Some (neg, ds, rest)
      | None => None
      end
  | EmptyString => None
  end.

(** The optional fraction: a dot and at least one digit. *)
Definition match_frac (s : string) : option (list Z) * string :=
  match s with
  | String "." r =>
      match span_digits r with
      | ([], _) => (None, s)
      | (ds, rest) => (Some ds, rest)
      end
  | _ => (None, s)
  end.

(** The optional exponent: e or E, a sign, at least one digit. *)
Definition match_exp (s : string) : option Z * string :=
  let after_sign (r : string) : bool * string :=
    match r with
    | String "-" r' => (true, r')
    | String "+" r' => (false, r')
    | _ => (false, r)
    end in
  let go (r : string) : option Z * string :=
    let (neg, r1) := after_sign r in
    match span_digits r1 with
    | ([], _) => (None, s)
    | (ds, rest) => (Some (if neg then - digits_value ds else digits_value ds), rest)
    end in
  match s with
  | String "e" r => go r
  | String "E" r => go r
  | _ => (None, s)
  end.

Definition match_number (s : string) : option (pyval * string) :=
  match match_integer s with
  | None => None
  | Some (neg, ds, r1) =>
      let (frac, r2) := match_frac r1 in
      let (exp, r3) := match_exp r2 in
      let sign (z : Z) := if neg then - z else z in
      match frac, exp with
      | None, None => Some (PInt (sign (digits_value ds)), r3)
      | _, _ =>
          let fs := match frac with Some f => f | None => [] end in
          let e := match exp with Some e => e | None => 0 end in
          Some (PFloat (FDec (sign (digits_value (ds ++ fs)))
                             (e - Z.of_nat (length fs))), r3)
      end
  end.

Definition byte (z : Z) : ascii := ascii_of_nat (Z.to_nat z).

(** [chr(cp)], as UTF-8 *)
Definition utf8 (cp : Z) : string :=
  if cp <? 128 then String (byte cp) EmptyString
  else if cp <? 2048 then
    String (byte (192 + cp / 64)) (String (byte (128 + cp mod 64)) EmptyString)
  else if cp <? 65536 then
    String (byte (224 + cp / 4096))
      (String (byte (128 + (cp / 64) mod 64)) (String (byte (128 + cp mod 64)) EmptyString))
  else
    String (byte (240 + cp / 262144))
      (String (byte (128 + (cp / 4096) mod 64))
         (String (byte (128 + (cp / 64) mod 64)) (String (byte (128 + cp mod 64)) EmptyString))).

Definition hex4 (a b c d : ascii) : option Z :=
  match hex_of a, hex_of b, hex_of c, hex_of d with
  | Some x, Some y, Some z, Some w => Some (((x * 16 + y) * 16 + z) * 16 + w)
  | _, _, _, _ => None
  end.

Definition simple_escape (c : ascii) : option ascii :=
  match c with
  | "034"%char => Some "034"%char
  | "\"%char => Some "\"%char
  | "/"%char => Some "/"%char
  | "b"%char => Some (ascii_of_nat 8)
  | "f"%char => Some (ascii_of_nat 12)
  | "n"%char => Some (ascii_of_nat 10)
  | "r"%char => Some (ascii_of_nat 13)
  | "t"%char => Some (ascii_of_nat 9)
  | _ => None
  end.

Definition cons_str (p : string) (r : option (string * string)) :
  option (string * string) :=
  match r with
  | Some (body, rest) => Some (p ++ body, rest)
  | None => None
  end.

(** The body of a string after its opening quote, up to the closing one. *)
Fixpoint scanstring (s : string) : option (string * string) :=
  match s with
  | EmptyString => None
  | String c r =>
      if Ascii.eqb c "034"%char then Some (EmptyString, r)
      else if Ascii.eqb c "\"%char then
        match r with
        | String "u" (String h1 (String h2 (String h3 (String h4 r1)))) =>
            match hex4 h1 h2 h3 h4 with
            | None => None
            | Some uni =>
                if ((55296 <=? uni) && (uni <=? 56319))%bool then
                  match r1 with
                  | String "\" (String "u" r2) =>
                      match r2 with
                      | String l1 (String l2 (String l3 (String l4 r3))) =>
                          match hex4 l1 l2 l3 l4 with
                          | None => None
                          | Some uni2 =>
                              if ((56320 <=? uni2) && (uni2 <=? 57343))%bool then
                                cons_str
                                  (utf8 (65536 + ((uni - 55296) * 1024 + (uni2 - 56320))))
                                  (scanstring r3)
                              else cons_str (utf8 uni) (scanstring r1)
                          end
                      | _ => None
                      end
                  | _ => cons_str (utf8 uni) (scanstring r1)
                  end
                else cons_str (utf8 uni) (scanstring r1)
            end
        | String "u" _ => None
        | String e r1 =>
            match simple_escape e with
            | Some ch => cons_str (String ch EmptyString) (scanstring r1)
            | None => None
            end
        | EmptyString => None
        end
      else if Nat.ltb (nat_of_ascii c) 32 then None
      else cons_str (String c EmptyString) (scanstring r)
  end.

(** [dict(pairs)] *)
Definition dict_of_pairs (pairs : list (string * pyval)) : pydict :=
  fold_left (fun d kv => dict_set (fst kv) (snd kv) d) pairs [].

Definition literal (lit : string) (v : pyval) (s : string) : option (pyval * string) :=
  match Str.strip_prefix lit s with
  | Some r => Some (v, r)
  | None => None
  end.

Definition or_else {A} (a b : option A) : option A :=
  match a with Some _ => a | None => b end.

(** A literal or a number, tried in the order of the scanner. *)
Definition scan_atom (s : string) : option (pyval * string) :=
  or_else (literal "null" PNone s)
    (or_else (literal "true" (PBool true) s)
       (or_else (literal "false" (PBool false) s)
          (or_else (match_number s)
             (or_else (literal "NaN" (PFloat FNaN) s)
                (or_else (literal "Infinity" (PFloat (FInf false)) s)
                   (literal "-Infinity" (PFloat (FInf true)) s)))))).

(** One value at the head of [s] (no leading white space), and the rest. *)
Fixpoint scan_once (fuel : nat) (s : string) : option (pyval * string) :=
  match fuel with
  | O => None
  | S n =>
      match s with
      | String "034" r =>
          match scanstring r with
          | Some (str, r') => Some (PStr str, r')
          | None => None
          end
      | String "{" r =>
          match skip_ws r with
          | String "}" r' => Some (PDict [], r')
          | r1 =>
              match parse_members n r1 with
              | Some (pairs, r') => Some (PDict (dict_of_pairs pairs), r')
              | None => None
              end
          end
      | String "[" r =>
          match skip_ws r with
          | String "]" r' => Some (PList [], r')
          | r1 =>
              match parse_elements n r1 with
              | Some (vs, r') => Some (PList vs, r')
              | None => None
              end
          end
      | _ => scan_atom s
      end
  end
with parse_elements (fuel : nat) (s : string) : option (list pyval * string) :=
  match fuel with
  | O => None
  | S n =>
      match scan_once n s with
      | None => None
      | Some (v, r) =>
          match skip_ws r with
          | String "]" r' => Some ([v], r')
          | String "," r' =>
              match parse_elements n (skip_ws r') with
              | Some (vs, r'') => Some (v :: vs, r'')
              | None => None
              end
          | _ => None
          end
      end
  end
with parse_members (fuel : nat) (s : string) : option (list (string * pyval) * string) :=
  match fuel with
  | O => None
  | S n =>
      match s with
      | String "034" r =>
          match scanstring r with
          | None => None
          | Some (k, r1) =>
              match skip_ws r1 with
              | String ":" r2 =>
                  match scan_once n (skip_ws r2) with
                  | None => None
                  | Some (v, r3) =>
                      match skip_ws r3 with
                      | String "}" r4 => Some ([(k, v)], r4)
                      | String "," r4 =>
                          match parse_members n (skip_ws r4) with
                          | Some (kvs, r5) => Some ((k, v) :: kvs, r5)
                          | None => None
                          end
                      | _ => None
                      end
                  end
              | _ => None
              end
          end
      | _ => None
      end
  end.

(** [json.loads(s)].  Every call in the chain below either consumes a
    character or is followed by one that does, so twice the length of the
    text bounds the depth of the recursion. *)
Definition loads (s : string) : option pyval :=
  match scan_once (2 * String.length s + 2) (skip_ws s) with
  | Some (v, r) => match skip_ws r with EmptyString => Some v | _ => None end
  | None => None
  end.

End Json.

(** ** Exceptions and the two monads *)

(** The exception classes the handler tells apart.  [ValueError] carries
    [str(e)]; [json.JSONDecodeError] is one of its subclasses and never
    leaves [_parse_event].  [ClientError] and [BotoCoreError] stand for
    these classes and their subclasses, [OtherError] for every remaining
    subclass of [Exception]. *)
Inductive exn :=
| ValueError (msg : string)
| AttributeError
| TypeError
| ClientError
| BotoCoreError
| OtherError (cls : string).

Inductive result (A : Type) :=
| Ok (a : A)
| Raise (e : exn).

Arguments Ok {A} a.
Arguments Raise {A} e.

Class Monad (M : Type -> Type) := {
  ret : forall {A}, A -> M A;
  bind : forall {A B}, M A -> (A -> M B) -> M B
}.

Declare Scope monad_scope.
Delimit Scope monad_scope with monad.
Notation "x <- m ;; k" := (bind m (fun x => k))
  (at level 61, m at next level, right associativity) : monad_scope.
Notation "' pat <- m ;; k" := (bind m (fun x => match x with pat => k end))
  (at level 61, pat pattern, m at next level, right associativity) : monad_scope.
Local Open Scope monad_scope.

#[export] Instance result_monad : Monad result := {
  ret := fun A a => Ok a;
  bind := fun A B m k => match m with Ok a => k a | Raise e => Raise e end
}.

(** The table handle [table = dynamodb.Table(TABLE_NAME)] is an external
    collaborator: the handler only sends it the five calls below, with the
    keyword arguments the source passes. *)
Inductive table_call :=
| get_item (Key : pyval)
| scan
| put_item (Item : pyval)
| update_item (Key : pyval) (UpdateExpression : string)
    (ExpressionAttributeNames ExpressionAttributeValues : pyval)
| delete_item (Key : pyval).

(** Any behaviour of the collaborator: a call returns a value or raises,
    and may change the table. *)
Class Table (S : Type) := {
  invoke : table_call -> S -> result pyval * S
}.

(** The world of one invocation: the table, and the calls sent so far. *)
Record world (S : Type) := World {
  store : S;
  calls : list table_call
}.

Arguments World {S} store calls.
Arguments store {S} w.
Arguments calls {S} w.

Definition M (S : Type) (A : Type) : Type := world S -> result A * world S.

#[export] Instance M_monad (S : Type) : Monad (M S) := {
  ret := fun A a w => (Ok a, w);
  bind := fun A B m k w =>
    match m w with
    | (Ok a, w') => k a w'
    | (Raise e, w') => (Raise e, w')
    end
}.

(** A pure step that may raise. *)
Definition lift {S A} (r : result A) : M S A := fun w => (r, w).

(** [table.<call>(...)] *)
Definition call {S} {T : Table S} (c : table_call) : M S pyval :=
  fun w =>
    let (r, s') := invoke c (store w) in
    (r, World s' (calls w ++ [c])).

(** [try: m  except <classes>: h] *)
Definition try_except {S A} (m : M S A) (classes : exn -> bool) (h : M S A) : M S A :=
  fun w =>
    match m w with
    | (Raise e, w') => if classes e then h w' else (Raise e, w')
    | r => r
    end.

(** [(ClientError, BotoCoreError)] *)
Definition boto_errors (e : exn) : bool :=
  match e with
  | ClientError | BotoCoreError => true
  | _ => false
  end.

(** ** Attribute access on dynamic values *)

(** [obj.get(k, default)]: only a dict has the method. *)
Definition attr_get_default (k : string) (default : pyval) (obj : pyval) : result pyval :=
  match obj with
  | PDict d => Ok (get_default k default d)
  | _ => Raise AttributeError
  end.

(** [obj.get(k)] *)
Definition attr_get (k : string) (obj : pyval) : result pyval :=
  attr_get_default k PNone obj.

(** [obj.upper()] *)
Definition attr_upper (obj : pyval) : result string :=
  match obj with
  | PStr s => Ok (Str.upper s)
  | _ => Raise AttributeError
  end.

(** [obj.split("/")] *)
Definition attr_split_slash (obj : pyval) : result (list string) :=
  match obj with
  | PStr s => Ok (Str.split_on "/" s)
  | _ => Raise AttributeError
  end.

(** [obj.keys()]: the mapping itself, when [obj] is one. *)
Definition attr_keys (obj : pyval) : result pydict :=
  match obj with
  | PDict d => Ok d
  | _ => Raise AttributeError
  end.

(** ** Configuration *)

(** [TABLE_NAME = os.getenv("TABLE_NAME", "Items")] *)
Definition TABLE_NAME (getenv : string -> option string) : string :=
  match getenv "TABLE_NAME" with
  | Some name => name
  | None => "Items"
  end.

Definition CORS_HEADERS : list (string * string) :=
  [("Access-Control-Allow-Origin", "*");
   ("Access-Control-Allow-Methods", "GET,POST,PUT,DELETE,OPTIONS");
   ("Access-Control-Allow-Headers", "Content-Type,Authorization");
   ("Content-Type", "application/json")].

(** ** Helpers *)

(** The text of a response body: [JsonText v] is the string
    [json.dumps(v, ensure_ascii=False)], [Verbatim v] a value passed
    through as it is. *)
Inductive body_text :=
| JsonText (v : pyval)
| Verbatim (v : pyval).

Record response := Response {
  statusCode : Z;
  headers : list (string * string);
  body : body_text
}.

(** What [json.dumps] accepts. *)
Fixpoint serializable (v : pyval) : bool :=
  match v with
  | PObject _ _ => false
  | PList l => forallb serializable l
  | PDict d => forallb (fun kv => serializable (snd kv)) d
  | _ => true
  end.

(** A mapping of values that [json.dumps] accepts. *)
Definition all_serializable (d : pydict) : bool :=
  forallb (fun kv => serializable (snd kv)) d.

Definition json_dumps (v : pyval) : result body_text :=
  if serializable v then Ok (JsonText v) else Raise TypeError.

(** [_response] (lines 29-35): a dict or a list is dumped, [None] becomes
    the empty string, anything else is passed through. *)
Definition _response (status : Z) (body : pyval) : result response :=
  match body with
  | PDict _ | PList _ =>
      text <- json_dumps body ;;
      ret (Response status CORS_HEADERS text)
  | PNone => ret (Response status CORS_HEADERS (Verbatim (PStr EmptyString)))
  | _ => ret (Response status CORS_HEADERS (Verbatim body))
  end.

(** [{"message": text}] *)
Definition message (text : string) : pyval := PDict [("message", PStr text)].

(** [(event.get("pathParameters") or {}).get("id")] *)
Definition path_param_id (event : pyval) : result pyval :=
  pp <- attr_get "pathParameters" event ;;
  attr_get "id" (py_or pp (PDict [])).

(** [[s for s in path.split("/") if s]] *)
Definition segments_of (path : pyval) : result (list string) :=
  parts <- attr_split_slash path ;;
  ret (filter Str.nonempty parts).

(** The fallback of [_parse_event] (lines 56-57): the id read from the
    path, else the value the binding gave. *)
Definition id_from_segments (segments : list string) (item_id : pyval) : pyval :=
  match segments with
  | first :: ((_ :: _) as rest) =>
      if String.eqb (Str.lower first) "items"
      then PStr (Str.join "/" rest)
      else item_id
  | _ => item_id
  end.

Definition invalid_json : string := "Invalid JSON in request body".

(** [_parse_event] (lines 37-66): method, path, identifier and payload of
    an envelope. *)
Definition _parse_event (event : pyval) : result (string * pyval * pyval * pyval) :=
  legacy <- attr_get "httpMethod" event ;;
  method <- (if truthy legacy then ret legacy
             else
               ctx <- attr_get_default "requestContext" (PDict []) event ;;
               http <- attr_get_default "http" (PDict []) ctx ;;
               modern <- attr_get "method" http ;;
               ret (py_or modern (PStr EmptyString))) ;;
  method <- attr_upper method ;;
  p <- attr_get "path" event ;;
  path <- (if truthy p then ret p
           else
             raw <- attr_get "rawPath" event ;;
             ret (py_or raw (PStr "/"))) ;;
  item_id <- path_param_id event ;;
  item_id <- (if negb (truthy item_id)
              then
                segments <- segments_of path ;;
                ret (id_from_segments segments item_id)
              else ret item_id) ;;
  b <- attr_get "body" event ;;
  let raw_body := py_or b (PStr "{}") in
  body <- match raw_body with
          | PStr text =>
              match Json.loads text with
              | Some v => ret v
              | None => Raise (ValueError invalid_json)
              end
          | _ => ret (py_or raw_body (PDict []))
          end ;;
  ret (method, path, item_id, body).

Definition required : list string := ["id"; "description"; "date"].

Definition missing_message (missing : list string) : string :=
  "必須項目不足: " ++ Str.join ", " missing.

Definition type_message (k : string) : string :=
  "'" ++ k ++ "' は文字列である必要があります".

(** The [for k in required] loop: the first required field that is not a
    string. *)
Fixpoint first_non_string (fields : list string) (payload : pydict) : option string :=
  match fields with
  | [] => None
  | k :: rest =>
      if is_str (get k payload) then first_non_string rest payload
      else Some (type_message k)
  end.

(** [_validate_item_payload] (lines 68-77), on a payload that is a
    mapping: [None] when it is valid, else the message. *)
Definition _validate_item_payload (payload : pydict) : option string :=
  let missing := filter (fun k => negb (dict_mem k payload)) required in
  match missing with
  | _ :: _ => Some (missing_message missing)
  | [] => first_non_string required payload
  end.

(** ** The handler *)

Section Handler.

Context {S : Type} {T : Table S}.

Definition respond (status : Z) (body : pyval) : M S response :=
  lift (_response status body).

Definition internal_error : M S response :=
  respond 500 (message "internal error").

(** The body of the outer [try] (lines 82-154).  The call of [logger.info]
    at its top evaluates [body.keys()], which raises unless the payload is a
    mapping; from there on the payload is that mapping. *)
Definition dispatch (event : pyval) : M S response :=
  '(method, path, item_id, body) <- lift (_parse_event event) ;;
  payload <- lift (attr_keys body) ;;
  if String.eqb method "OPTIONS" then respond 204 (PStr EmptyString)
  else if String.eqb method "GET" then
    if truthy item_id then
      try_except
        (resp <- call (get_item (PDict [("id", item_id)])) ;;
         item <- lift (attr_get "Item" resp) ;;
         if negb (truthy item) then respond 404 (message "not found")
         else respond 200 item)
        boto_errors internal_error
    else
      try_except
        (resp <- call scan ;;
         items <- lift (attr_get_default "Items" (PList []) resp) ;;
         respond 200 items)
        boto_errors internal_error
  else if String.eqb method "POST" then
    if truthy item_id then
      respond 400 (message "POST ではパスに id を含めないでください")
    else
      match _validate_item_payload payload with
      | Some err => respond 400 (message err)
      | None =>
          try_except
            (_ <- call (put_item body) ;;
             respond 201 (message "created"))
            boto_errors internal_error
      end
  else if String.eqb method "PUT" then
    if negb (truthy item_id) then respond 400 (message "id が必要です")
    else
      try_except
        (_ <- call (update_item (PDict [("id", item_id)])
                      "SET #d = :d, #t = :t"
                      (PDict [("#d", PStr "description"); ("#t", PStr "date")])
                      (PDict [(":d", get "description" payload);
                              (":t", get "date" payload)])) ;;
         respond 200 (message "updated"))
        boto_errors internal_error
  else if String.eqb method "DELETE" then
    let del_id := py_or item_id (get "id" payload) in
    if negb (truthy del_id) then respond 400 (message "id 必須")
    else
      try_except
        (_ <- call (delete_item (PDict [("id", del_id)])) ;;
         respond 200 (message "deleted"))
        boto_errors internal_error
  else respond 405 (message "unsupported").

(** [lambda_handler] (lines 80-161): the two [except] clauses of the outer
    boundary, [ValueError] first. *)
Definition lambda_handler (event context : pyval) : M S response :=
  fun w =>
    match dispatch event w with
    | (Raise (ValueError ve), w') => respond 400 (message ve) w'
    | (Raise _, w') => internal_error w'
    | r => r
    end.

End Handler.

(** ** A reference table

    An in-memory key-value table with the interface of the collaborator: a
    list of items, each under the scalar value of its [id] attribute.  It
    serves to state what a call does to the stored items, and as a concrete
    table for the examples.  A malformed call is answered with
    [ClientError], as the service answers with a validation error.  It is
    the idealised store, not the table resource of the program: that one
    hands numbers back as [Decimal] objects and rejects an empty key and
    float values. *)

Module MemTable.

Inductive key :=
| KS (s : string)
| KN (n : Z).

Definition key_eqb (a b : key) : bool :=
  match a, b with
  | KS x, KS y => String.eqb x y
  | KN x, KN y => Z.eqb x y
  | _, _ => false
  end.

Definition key_value (k : key) : pyval :=
  match k with
  | KS s => PStr s
  | KN n => PInt n
  end.

Definition scalar (v : pyval) : option key :=
  match v with
  | PStr s => Some (KS s)
  | PInt n => Some (KN n)
  | _ => None
  end.

(** The key named by [Key={"id": ...}] *)
Definition key_of (Key : pyval) : option key :=
  match Key with
  | PDict [(name, v)] => if String.eqb name "id" then scalar v else None
  | _ => None
  end.

Definition state := list (key * pydict).

Fixpoint lookup (k : key) (st : state) : option pydict :=
  match st with
  | [] => None
  | (k', item) :: rest => if key_eqb k k' then Some item else lookup k rest
  end.

Definition remove (k : key) (st : state) : state :=
  filter (fun entry => negb (key_eqb k (fst entry))) st.

(** Apply [f] to the item under [k], where it is. *)
Fixpoint modify (k : key) (f : pydict -> pydict) (st : state) : state :=
  match st with
  | [] => []
  | (k', item) :: rest =>
      if key_eqb k k' then (k', f item) :: rest
      else (k', item) :: modify k f rest
  end.

(** One clause [lhs = rhs] of a SET expression. *)
Definition parse_clause (clause : string) : option (string * string) :=
  match Str.split_on "=" clause with
  | [lhs; rhs] => Some (Str.strip lhs, Str.strip rhs)
  | _ => None
  end.

Fixpoint parse_clauses (clauses : list string) : option (list (string * string)) :=
  match clauses with
  | [] => Some []
  | c :: rest =>
      match parse_clause c, parse_clauses rest with
      | Some a, Some others => Some (a :: others)
      | _, _ => None
      end
  end.

(** [SET a = :x, b = :y, ...] *)
Definition parse_set (expr : string) : option (list (string * string)) :=
  match Str.strip_prefix "SET " expr with
  | Some rest => parse_clauses (Str.split_on "," rest)
  | None => None
  end.

(** An attribute name: a [#placeholder] of the names mapping, or itself. *)
Definition resolve_name (names : pydict) (n : string) : option string :=
  match n with
  | String "#" _ =>
      match dict_get n names with
      | Some (PStr attr) => Some attr
      | _ => None
      end
  | _ => Some n
  end.

(** An operand: a [:placeholder] of the values mapping. *)
Definition resolve_value (values : pydict) (v : string) : option pyval :=
  match v with
  | String ":" _ => dict_get v values
  | _ => None
  end.

(** The assignments of an update: attribute and new value, in order.  The
    key attribute cannot be assigned. *)
Fixpoint assignments (names values : pydict) (clauses : list (string * string))
  : option (list (string * pyval)) :=
  match clauses with
  | [] => Some []
  | (lhs, rhs) :: rest =>
      match resolve_name names lhs, resolve_value values rhs,
            assignments names values rest with
      | Some attr, Some v, Some others =>
          if String.eqb attr "id" then None else Some ((attr, v) :: others)
      | _, _, _ => None
      end
  end.

Definition assign (sets : list (string * pyval)) (item : pydict) : pydict :=
  fold_left (fun it av => dict_set (fst av) (snd av) it) sets item.

Definition update (k : key) (sets : list (string * pyval)) (st : state) : state :=
  match lookup k st with
  | Some _ => modify k (assign sets) st
  | None => (st ++ [(k, assign sets [("id", key_value k)])])%list
  end.

Definition run (c : table_call) (st : state) : result pyval * state :=
  match c with
  | get_item Key =>
      match key_of Key with
      | Some k =>
          match lookup k st with
          | Some item => (Ok (PDict [("Item", PDict item)]), st)
          | None => (Ok (PDict []), st)
          end
      | None => (Raise ClientError, st)
      end
  | scan => (Ok (PDict [("Items", PList (map (fun e => PDict (snd e)) st))]), st)
  | put_item (PDict item) =>
      match scalar (get "id" item) with
      | Some k => (Ok (PDict []), (k, item) :: remove k st)
      | None => (Raise ClientError, st)
      end
  | put_item _ => (Raise ClientError, st)
  | update_item Key expr (PDict names) (PDict values) =>
      match key_of Key, parse_set expr with
      | Some k, Some clauses =>
          match assignments names values clauses with
          | Some sets => (Ok (PDict []), update k sets st)
          | None => (Raise ClientError, st)
          end
      | _, _ => (Raise ClientError, st)
      end
  | update_item _ _ _ _ => (Raise ClientError, st)
  | delete_item Key =>
      match key_of Key with
      | Some k => (Ok (PDict []), remove k st)
      | None => (Raise ClientError, st)
      end
  end.

#[export] Instance table : Table state := { invoke := run }.

End MemTable.

(** A table that fails every call with the same exception. *)
Definition failing (e : exn) : Table unit := {| invoke := fun _ u => (Raise e, u) |}.

(** A table that accepts every call and stores nothing. *)
Definition accepting : Table unit := {| invoke := fun _ u => (Ok (PDict []), u) |}.


(** The envelope of the examples: a REST request with an optional body. *)
Definition request (method path : string) (body : pyval) : pyval :=
  PDict [("httpMethod", PStr method); ("path", PStr path); ("body", body)].

Definition run_handler {S} (T : Table S) (event : pyval) (st : S) : result response * world S :=
  @lambda_handler S T event PNone (World st []).

(** [_response(status, {"message": text})] as a value *)
Definition reply (status : Z) (text : string) : response :=
  Response status CORS_HEADERS (JsonText (message text)).

(** The validator in the words of the specification, with the texts it
    is to answer written out: the missing fields in declaration order first,
    comma-separated, and only with none missing the first field whose value
    is not a string. *)
Definition wrong_type (k : string) (payload : pydict) : bool :=
  negb (is_str (get k payload)).

Definition spec_validate (payload : pydict) : option string :=
  match dict_mem "id" payload, dict_mem "description" payload,
        dict_mem "date" payload with
  | false, false, false => Some "必須項目不足: id, description, date"
  | false, false, true => Some "必須項目不足: id, description"
  | false, true, false => Some "必須項目不足: id, date"
  | false, true, true => Some "必須項目不足: id"
  | true, false, false => Some "必須項目不足: description, date"
  | true, false, true => Some "必須項目不足: description"
  | true, true, false => Some "必須項目不足: date"
  | true, true, true =>
      if wrong_type "id" payload
      then Some "'id' は文字列である必要があります"
      else if wrong_type "description" payload
      then Some "'description' は文字列である必要があります"
      else if wrong_type "date" payload
      then Some "'date' は文字列である必要があります"
      else None
  end.

(** A response with the fixed headers whose body, when the status is an
    error, is the JSON text of a mapping with the single field [message]. *)
Definition uniform (r : response) : Prop :=
  headers r = CORS_HEADERS /\
  (400 <= statusCode r -> exists text, body r = JsonText (message text)).

(** A computation whose responses are all uniform. *)
Definition uniformly {S} (m : M S response) : Prop :=
  forall w, match m w with
            | (Ok r, _) => uniform r
            | (Raise _, _) => True
            end.

(** The reading of the path fallback under which the first segment is to
    equal a collection name [name] case-insensitively. *)
Definition fallback_for (name : string) : Prop :=
  forall event method path item_id body explicit,
    _parse_event event = Ok (method, PStr path, item_id, body) ->
    path_param_id event = Ok explicit ->
    truthy explicit = false ->
    let segments := filter Str.nonempty (Str.split_on "/" path) in
    let hit := (2 <= length segments)%nat /\
               Str.lower (hd EmptyString segments) = Str.lower name in
    (hit -> item_id = PStr (Str.join "/" (tl segments)) /\ truthy item_id = true) /\
    (~ hit -> truthy item_id = false).


(** The update call of a PUT. *)
Definition put_call (item_id : pyval) (payload : pydict) : table_call :=
  update_item (PDict [("id", item_id)])
    "SET #d = :d, #t = :t"
    (PDict [("#d", PStr "description"); ("#t", PStr "date")])
    (PDict [(":d", get "description" payload); (":t", get "date" payload)]).

(** The reply of [_response] to status 204 and an empty string *)
Definition no_content : response :=
  Response 204 CORS_HEADERS (Verbatim (PStr EmptyString)).

(** The world after a computation, and its outcome. *)
Definition outcome {S A} (x : result A * world S) : result A := fst x.
Definition after {S A} (x : result A * world S) : world S := snd x.

(** ** What one invocation does to the world *)

(** The status codes the handler answers with. *)
Definition statuses : list Z := [200; 201; 204; 400; 404; 405; 500].

(** A computation all of whose responses satisfy [P]. *)
Definition always {S} (P : response -> Prop) (m : M S response) : Prop :=
  forall w, match m w with
            | (Ok r, _) => P r
            | (Raise _, _) => True
            end.

(** A computation that leaves the world as it found it. *)
Definition silent {S A} (m : M S A) : Prop :=
  forall w, after (m w) = w.

(** The world after the call [c] was sent from [w]. *)
Definition sent {S} {T : Table S} (c : table_call) (w : world S) : world S :=
  World (snd (invoke c (store w))) (calls w ++ [c]).

(** A computation that sends one call at most. *)
Definition frugal {S} {T : Table S} {A} (m : M S A) : Prop :=
  forall w, after (m w) = w \/ exists c, after (m w) = sent c w.

(** The call an accepted request leads to, if any (lines 90-152): the
    read of a GET, the put of a valid create without path identifier, the
    update of a PUT with an identifier, the delete of a DELETE with one. *)
Definition planned_call (method : string) (item_id : pyval) (payload : pydict)
  : option table_call :=
  if String.eqb method "OPTIONS" then None
  else if String.eqb method "GET" then
    Some (if truthy item_id then get_item (PDict [("id", item_id)]) else scan)
  else if String.eqb method "POST" then
    if truthy item_id then None
    else match _validate_item_payload payload with
         | Some _ => None
         | None => Some (put_item (PDict payload))
         end
  else if String.eqb method "PUT" then
    if truthy item_id then Some (put_call item_id payload) else None
  else if String.eqb method "DELETE" then
    let del_id := py_or item_id (get "id" payload) in
    if truthy del_id then Some (delete_item (PDict [("id", del_id)])) else None
  else None.

(** ** The two halves of [_parse_event] *)

(** Lines 44-57: method, path and identifier, before the body is looked
    at. *)
Definition request_line (event : pyval) : result (string * pyval * pyval) :=
  legacy <- attr_get "httpMethod" event ;;
  method <- (if truthy legacy then ret legacy
             else
               ctx <- attr_get_default "requestContext" (PDict []) event ;;
               http <- attr_get_default "http" (PDict []) ctx ;;
               modern <- attr_get "method" http ;;
               ret (py_or modern (PStr EmptyString))) ;;
  method <- attr_upper method ;;
  p <- attr_get "path" event ;;
  path <- (if truthy p then ret p
           else
             raw <- attr_get "rawPath" event ;;
             ret (py_or raw (PStr "/"))) ;;
  item_id <- path_param_id event ;;
  item_id <- (if negb (truthy item_id)
              then
                segments <- segments_of path ;;
                ret (id_from_segments segments item_id)
              else ret item_id) ;;
  ret (method, path, item_id).

(** Lines 60-64: the payload read from the body field. *)
Definition payload_of (event : pyval) : result pyval :=
  b <- attr_get "body" event ;;
  let raw_body := py_or b (PStr "{}") in
  match raw_body with
  | PStr text =>
      match Json.loads text with
      | Some v => ret v
      | None => Raise (ValueError invalid_json)
      end
  | _ => ret (py_or raw_body (PDict []))
  end.

(** The fields of the envelope that [_parse_event] reads. *)
Definition envelope_keys : list string :=
  ["httpMethod"; "requestContext"; "path"; "rawPath"; "pathParameters"; "body"].

(** A string without the separator of paths. *)
Fixpoint slash_free (s : string) : bool :=
  match s with
  | EmptyString => true
  | String c r => (negb (Ascii.eqb c "/") && slash_free r)%bool
  end.

(** * Properties *)

Example split_demo :
  Str.split_on "/" "/Items//a1/" = [EmptyString; "Items"; EmptyString; "a1"; EmptyString] /\
  Str.join "/" ["a"; "b"; "c"] = "a/b/c" /\
  Str.upper "options" = "OPTIONS" /\
  Str.strip "  #d " = "#d" /\
  String.length "必須" = 6%nat.
Proof. repeat split; reflexivity. Qed.

Example loads_demo :
  Json.loads "null" = Some PNone /\
  Json.loads "{}" = Some (PDict []) /\
  Json.loads (json_text " {'id': 'a1', 'n': [1, -2.50e1, true], 'id': 'b'} ") =
    Some (PDict [("id", PStr "b");
                 ("n", PList [PInt 1; PFloat (FDec (-250) (-1)); PBool true])]) /\
  Json.loads "{" = None /\
  Json.loads "[1,]" = None /\
  Json.loads "01" = None /\
  Json.loads "1." = None /\
  Json.loads "-Infinity" = Some (PFloat (FInf true)) /\
  Json.loads (json_text "'aé\n'") =
    Some (PStr ("a" ++ Json.utf8 233 ++ String (ascii_of_nat 10) EmptyString)) /\
  Json.loads (json_text "'😀'") = Some (PStr (Json.utf8 128512)) /\
  Json.loads (json_text "'\ud83d\ude00'") = Some (PStr (Json.utf8 128512)) /\
  Json.loads (json_text "[[[{'a': {'b': [[], {}]}}]], null]") =
    Some (PList [PList [PList [PDict [("a", PDict [("b", PList [PList []; PDict []])])]]];
                 PNone]) /\
  Json.loads (json_text "{'a': 1,}") = None /\
  Json.loads (json_text "{'a' 1}") = None /\
  Json.loads EmptyString = None.
Proof. repeat split; vm_compute; reflexivity. Qed.

(** ** Decoded values are JSON values *)

Lemma dict_get_serializable k d v :
  all_serializable d = true -> dict_get k d = Some v -> serializable v = true.
Proof.
  unfold all_serializable. induction d as [| [k' u] d IH]; cbn; [discriminate |].
  intros Hall. apply andb_true_iff in Hall. destruct Hall as [Hu Hd].
  destruct (String.eqb k k'); [intros [= <-]; exact Hu | auto].
Qed.

Lemma get_default_serializable k default d :
  all_serializable d = true -> serializable default = true ->
  serializable (get_default k default d) = true.
Proof.
  intros Hd Hdef. unfold get_default.
  destruct (dict_get k d) eqn:Hg; [exact (dict_get_serializable _ _ _ Hd Hg) | exact Hdef].
Qed.

Lemma dict_set_serializable k v d :
  all_serializable d = true -> serializable v = true ->
  all_serializable (dict_set k v d) = true.
Proof.
  unfold all_serializable. intros Hd Hv.
  induction d as [| [k' u] d IH]; cbn; [rewrite Hv; reflexivity |].
  cbn in Hd. apply andb_true_iff in Hd. destruct Hd as [Hu Hd].
  destruct (String.eqb k k'); cbn; [rewrite Hv | rewrite Hu, IH]; auto.
Qed.

Lemma dict_of_pairs_serializable pairs :
  all_serializable pairs = true -> all_serializable (Json.dict_of_pairs pairs) = true.
Proof.
  unfold Json.dict_of_pairs.
  assert (Hgen : forall acc, all_serializable acc = true -> all_serializable pairs = true ->
                             all_serializable (fold_left (fun d kv => dict_set (fst kv) (snd kv) d)
                                                 pairs acc) = true).
  { induction pairs as [| [k v] pairs IH]; intros acc Hacc Hall; cbn; [exact Hacc |].
    cbn in Hall. apply andb_true_iff in Hall. destruct Hall as [Hv Hall].
    apply IH; [apply dict_set_serializable; assumption | exact Hall]. }
  intros Hall. apply Hgen; [reflexivity | exact Hall].
Qed.

Lemma literal_serializable lit v s w r :
  serializable v = true -> Json.literal lit v s = Some (w, r) -> serializable w = true.
Proof.
  intros Hv. unfold Json.literal. destruct (Str.strip_prefix lit s); [| discriminate].
  intros [= <- _]. exact Hv.
Qed.

Lemma match_number_serializable s v r :
  Json.match_number s = Some (v, r) -> serializable v = true.
Proof.
  unfold Json.match_number.
  destruct (Json.match_integer s) as [[[neg ds] r1] |]; [| discriminate].
  destruct (Json.match_frac r1) as [frac r2].
  destruct (Json.match_exp r2) as [exp r3].
  destruct frac, exp; intros [= <- _]; reflexivity.
Qed.

Lemma scan_atom_serializable s v r :
  Json.scan_atom s = Some (v, r) -> serializable v = true.
Proof.
  unfold Json.scan_atom, Json.or_else.
  repeat match goal with
         | |- context [match Json.literal ?l ?u s with _ => _ end] =>
             destruct (Json.literal l u s) as [[w q] |] eqn:?;
             [intros [= <- _]; eapply literal_serializable; [| eassumption]; reflexivity |]
         | |- context [match Json.match_number s with _ => _ end] =>
             destruct (Json.match_number s) as [[w q] |] eqn:?;
             [intros [= <- _]; eapply match_number_serializable; eassumption |]
         end.
  intros H. eapply literal_serializable; [| exact H]. reflexivity.
Qed.

Lemma scan_serializable fuel :
  (forall s v r, Json.scan_once fuel s = Some (v, r) -> serializable v = true) /\
  (forall s vs r, Json.parse_elements fuel s = Some (vs, r) ->
                  forallb serializable vs = true) /\
  (forall s kvs r, Json.parse_members fuel s = Some (kvs, r) ->
                   all_serializable kvs = true).
Proof.
  induction fuel as [| n (IHv & IHe & IHm)]; [repeat split; intros; discriminate |].
  repeat split.
  - intros s v r H. cbn [Json.scan_once] in H.
    repeat match type of H with
           | context [match ?x with _ => _ end] => destruct x eqn:?; try discriminate
           end;
      try (eapply scan_atom_serializable; eassumption);
      injection H as <- _; try reflexivity.
    all: try (cbn [serializable]; eapply IHe; eassumption).
    all: try (cbn [serializable]; apply dict_of_pairs_serializable; eapply IHm; eassumption).
  - intros s vs r H. cbn [Json.parse_elements] in H.
    destruct (Json.scan_once n s) as [[v r1] |] eqn:Hv; [| discriminate].
    apply IHv in Hv.
    repeat match type of H with
           | context [match ?x with _ => _ end] => destruct x eqn:?; try discriminate
           end;
      injection H as <- _; cbn [forallb]; rewrite Hv; cbn [andb]; try reflexivity.
    all: eapply IHe; eassumption.
  - intros s kvs r H. cbn [Json.parse_members] in H.
    unfold all_serializable.
    repeat match type of H with
           | context [match ?x with _ => _ end] => destruct x eqn:?; try discriminate
           end;
      injection H as <- _; cbn [forallb snd];
      match goal with
      | Hs : Json.scan_once n _ = Some (?v, _) |- _ => rewrite (IHv _ _ _ Hs)
      end; cbn [andb]; try reflexivity.
    all: eapply IHm; eassumption.
Qed.

Lemma loads_serializable text v :
  Json.loads text = Some v -> serializable v = true.
Proof.
  unfold Json.loads.
  destruct (Json.scan_once _ _) as [[w r] |] eqn:Hscan; [| discriminate].
  destruct (Json.skip_ws r); [| discriminate].
  intros [= <-]. exact (proj1 (scan_serializable _) _ _ _ Hscan).
Qed.

Lemma attr_get_serializable k obj v :
  serializable obj = true -> attr_get k obj = Ok v -> serializable v = true.
Proof.
  intros Hobj. destruct obj; try discriminate. cbn. intros [= <-].
  apply get_default_serializable; [exact Hobj | reflexivity].
Qed.

Lemma py_or_serializable a b :
  serializable a = true -> serializable b = true -> serializable (py_or a b) = true.
Proof. intros Ha Hb. unfold py_or. destruct (truthy a); assumption. Qed.

(** The payload of a JSON envelope is a JSON value. *)
Lemma parse_event_payload_serializable event method path item_id body :
  serializable event = true ->
  _parse_event event = Ok (method, path, item_id, body) ->
  serializable body = true.
Proof.
  intros Hev. unfold _parse_event. cbn [bind result_monad ret]. intros H.
  repeat match type of H with
         | context [match ?x with Ok _ => _ | Raise _ => _ end] =>
             lazymatch x with
             | attr_get "body" event => fail
             | _ => destruct x; [| discriminate]
             end
         end.
  destruct (attr_get "body" event) as [b |] eqn:Hb; [| discriminate].
  apply (attr_get_serializable _ _ _ Hev) in Hb.
  assert (Hraw : serializable (py_or b (PStr "{}")) = true)
    by (apply py_or_serializable; [exact Hb | reflexivity]).
  destruct (py_or b (PStr "{}")) as [| | | | text | | |] eqn:Hr;
    try (injection H as _ _ _ <-; apply py_or_serializable; [exact Hraw | reflexivity]).
  destruct (Json.loads text) as [v |] eqn:Hv; [| discriminate].
  injection H as _ _ _ <-. exact (loads_serializable _ _ Hv).
Qed.

(** ** Dictionaries and the reference table *)

Lemma dict_get_set (a b : string) (v : pyval) (d : pydict) :
  dict_get a (dict_set b v d) = if String.eqb a b then Some v else dict_get a d.
Proof.
  induction d as [| [k u] d IH]; cbn.
  - destruct (String.eqb a b); reflexivity.
  - destruct (String.eqb_spec b k) as [-> | Hbk]; cbn.
    + destruct (String.eqb a k); reflexivity.
    + rewrite IH. destruct (String.eqb_spec a k) as [-> | Hak]; [| reflexivity].
      destruct (String.eqb_spec k b); congruence.
Qed.

Lemma key_eqb_eq (a b : MemTable.key) : MemTable.key_eqb a b = true <-> a = b.
Proof.
  destruct a, b; cbn; split; intros H; try discriminate.
  - apply String.eqb_eq in H. congruence.
  - apply String.eqb_eq. congruence.
  - apply Z.eqb_eq in H. congruence.
  - apply Z.eqb_eq. congruence.
Qed.

Lemma key_eqb_refl (a : MemTable.key) : MemTable.key_eqb a a = true.
Proof. apply key_eqb_eq. reflexivity. Qed.

Lemma lookup_modify_same k f st old :
  MemTable.lookup k st = Some old ->
  MemTable.lookup k (MemTable.modify k f st) = Some (f old).
Proof.
  induction st as [| [k1 it] st IH]; cbn; [discriminate |].
  destruct (MemTable.key_eqb k k1) eqn:Hk; cbn; rewrite Hk.
  - intros [= ->]. reflexivity.
  - exact IH.
Qed.

Lemma lookup_modify_other k k' f st :
  MemTable.key_eqb k k' = false ->
  MemTable.lookup k' (MemTable.modify k f st) = MemTable.lookup k' st.
Proof.
  intros Hne. induction st as [| [k1 it] st IH]; cbn; [reflexivity |].
  destruct (MemTable.key_eqb k k1) eqn:Hk; cbn.
  - apply key_eqb_eq in Hk. subst k1.
    destruct (MemTable.key_eqb k' k) eqn:Hk'; [| reflexivity].
    apply key_eqb_eq in Hk'. subst k'. rewrite key_eqb_refl in Hne. discriminate.
  - rewrite IH. reflexivity.
Qed.

Lemma lookup_remove_other k k' st :
  MemTable.key_eqb k k' = false ->
  MemTable.lookup k' (MemTable.remove k st) = MemTable.lookup k' st.
Proof.
  intros Hne. unfold MemTable.remove.
  induction st as [| [k1 it] st IH]; cbn [filter fst MemTable.lookup]; [reflexivity |].
  destruct (MemTable.key_eqb k k1) eqn:Hk; cbn [negb MemTable.lookup].
  - apply key_eqb_eq in Hk. subst k1.
    destruct (MemTable.key_eqb k' k) eqn:Hk'; [| exact IH].
    apply key_eqb_eq in Hk'. subst k'. rewrite key_eqb_refl in Hne. discriminate.
  - rewrite IH. reflexivity.
Qed.

(** What the update call of a PUT does on the reference table. *)
Lemma run_put_call item_id payload k st :
  MemTable.scalar item_id = Some k ->
  MemTable.run (put_call item_id payload) st =
    (Ok (PDict []),
     MemTable.update k [("description", get "description" payload);
                        ("date", get "date" payload)] st).
Proof.
  intros Hk. unfold put_call. cbn. rewrite Hk. reflexivity.
Qed.

Section Dispatch.

Context {S : Type} {T : Table S}.

Lemma respond_message (status : Z) (text : string) (w : world S) :
  respond status (message text) w = (Ok (reply status text), w).
Proof. reflexivity. Qed.

Lemma internal_error_eq (w : world S) :
  internal_error w = (Ok (reply 500 "internal error"), w).
Proof. reflexivity. Qed.

(** What [dispatch] does once the envelope is parsed and the payload is a
    mapping, method by method. *)
Lemma dispatch_options event path item_id payload w :
  _parse_event event = Ok ("OPTIONS", path, item_id, PDict payload) ->
  dispatch event w = respond 204 (PStr EmptyString) w.
Proof.
  intros Hparse. unfold dispatch. cbn [bind M_monad lift]. rewrite Hparse.
  reflexivity.
Qed.

Lemma dispatch_delete event path item_id payload w :
  _parse_event event = Ok ("DELETE", path, item_id, PDict payload) ->
  dispatch event w =
    (let del_id := py_or item_id (get "id" payload) in
     if negb (truthy del_id) then respond 400 (message "id 必須")
     else
       try_except
         (_ <- call (delete_item (PDict [("id", del_id)])) ;;
          respond 200 (message "deleted"))
         boto_errors internal_error) w.
Proof.
  intros Hparse. unfold dispatch. cbn [bind M_monad lift]. rewrite Hparse.
  reflexivity.
Qed.

Lemma dispatch_get event path item_id payload w :
  _parse_event event = Ok ("GET", path, item_id, PDict payload) ->
  dispatch event w =
    (if truthy item_id then
       try_except
         (resp <- call (get_item (PDict [("id", item_id)])) ;;
          item <- lift (attr_get "Item" resp) ;;
          if negb (truthy item) then respond 404 (message "not found")
          else respond 200 item)
         boto_errors internal_error
     else
       try_except
         (resp <- call scan ;;
          items <- lift (attr_get_default "Items" (PList []) resp) ;;
          respond 200 items)
         boto_errors internal_error) w.
Proof.
  intros Hparse. unfold dispatch. cbn [bind M_monad lift]. rewrite Hparse.
  reflexivity.
Qed.

Lemma dispatch_post event path item_id payload w :
  _parse_event event = Ok ("POST", path, item_id, PDict payload) ->
  dispatch event w =
    (if truthy item_id then
       respond 400 (message "POST ではパスに id を含めないでください")
     else
       match _validate_item_payload payload with
       | Some err => respond 400 (message err)
       | None =>
           try_except
             (_ <- call (put_item (PDict payload)) ;;
              respond 201 (message "created"))
             boto_errors internal_error
       end) w.
Proof.
  intros Hparse. unfold dispatch. cbn [bind M_monad lift]. rewrite Hparse.
  reflexivity.
Qed.

Lemma dispatch_put event path item_id payload w :
  _parse_event event = Ok ("PUT", path, item_id, PDict payload) ->
  dispatch event w =
    (if negb (truthy item_id) then respond 400 (message "id が必要です")
     else
       try_except
         (_ <- call (put_call item_id payload) ;;
          respond 200 (message "updated"))
         boto_errors internal_error) w.
Proof.
  intros Hparse. unfold dispatch. cbn [bind M_monad lift]. rewrite Hparse.
  reflexivity.
Qed.

(** One guarded table call followed by a fixed reply. *)
Lemma guarded_call (c : table_call) (status : Z) (text : string) (w : world S) :
  let x := try_except (_ <- call c ;; respond status (message text))
             boto_errors internal_error w in
  calls (after x) = (calls w ++ [c])%list /\
  store (after x) = snd (invoke c (store w)) /\
  (forall v, fst (invoke c (store w)) = Ok v -> outcome x = Ok (reply status text)) /\
  (forall e, fst (invoke c (store w)) = Raise e -> boto_errors e = true ->
             outcome x = Ok (reply 500 "internal error")) /\
  (forall e, fst (invoke c (store w)) = Raise e -> boto_errors e = false ->
             outcome x = Raise e).
Proof.
  unfold try_except, call. cbn [bind M_monad].
  destruct (invoke c (store w)) as [[v | e] s'] eqn:Hc; cbn.
  - repeat split; intros; congruence.
  - destruct (boto_errors e) eqn:He; cbn; repeat split; intros; congruence.
Qed.

Lemma handler_of_dispatch event context w :
  lambda_handler event context w =
    match dispatch event w with
    | (Ok r, w') => (Ok r, w')
    | (Raise (ValueError ve), w') => (Ok (reply 400 ve), w')
    | (Raise _, w') => (Ok (reply 500 "internal error"), w')
    end.
Proof.
  unfold lambda_handler.
  destruct (dispatch event w) as [[r | e] w']; [reflexivity | destruct e; reflexivity].
Qed.

(** ** OPTIONS *)

(** C8, for the envelopes the normalizer accepts: once the envelope is
    parsed with method OPTIONS and a mapping for payload, the reply is 204 with an empty string body,
    whatever the path, the identifier, the payload and the table; the table
    is not called. *)
Theorem options_no_content event context path item_id payload w :
  _parse_event event = Ok ("OPTIONS", path, item_id, PDict payload) ->
  lambda_handler event context w = (Ok no_content, w).
Proof.
  intros Hparse. rewrite handler_of_dispatch.
  rewrite (dispatch_options _ _ _ _ _ Hparse). reflexivity.
Qed.

(** ** DELETE *)

Lemma delete_cases event context path item_id payload w :
  _parse_event event = Ok ("DELETE", path, item_id, PDict payload) ->
  let del_id := if truthy item_id then item_id else get "id" payload in
  let x := lambda_handler event context w in
  (truthy del_id = false -> x = (Ok (reply 400 "id 必須"), w)) /\
  (truthy del_id = true ->
     calls (after x) = (calls w ++ [delete_item (PDict [("id", del_id)])])%list /\
     store (after x) = snd (invoke (delete_item (PDict [("id", del_id)])) (store w)) /\
     (forall v, fst (invoke (delete_item (PDict [("id", del_id)])) (store w)) = Ok v ->
                outcome x = Ok (reply 200 "deleted"))).
Proof.
  intros Hparse del_id x. subst x. rewrite handler_of_dispatch.
  rewrite (dispatch_delete _ _ _ _ _ Hparse). cbv zeta.
  change (py_or item_id (get "id" payload)) with del_id.
  split; intros Hid; rewrite Hid; cbn [negb].
  - rewrite respond_message. reflexivity.
  - destruct (guarded_call (delete_item (PDict [("id", del_id)])) 200 "deleted" w)
      as (Hcalls & Hstore & Hok & Hboto & Hother).
    destruct (try_except _ _ _ w) as [[r | e] w'] eqn:Hx; cbn in *.
    + repeat split; auto.
    + destruct e; cbn; repeat split; auto;
        intros v Hv; specialize (Hok v Hv); discriminate.
Qed.


(** C10: a DELETE without path identifier whose payload binds [id] to a
    truthy value that is not a string is not turned away: the delete call
    is sent with that value as the key, and 200 is returned when the call
    succeeds, although the validator of create rejects the same payload. *)
Theorem delete_id_untyped event context path item_id payload v w :
  _parse_event event = Ok ("DELETE", path, item_id, PDict payload) ->
  truthy item_id = false ->
  dict_get "id" payload = Some v ->
  truthy v = true ->
  is_str v = false ->
  let x := lambda_handler event context w in
  calls (after x) = (calls w ++ [delete_item (PDict [("id", v)])])%list /\
  (forall r, fst (invoke (delete_item (PDict [("id", v)])) (store w)) = Ok r ->
             outcome x = Ok (reply 200 "deleted")) /\
  _validate_item_payload payload <> None.
Proof.
  intros Hparse Hpath Hget Htruthy Hstr x.
  assert (Hid : get "id" payload = v) by (unfold get, get_default; rewrite Hget; reflexivity).
  destruct (delete_cases event context path item_id payload w Hparse) as [_ Hsome].
  rewrite Hpath, Hid in Hsome. destruct (Hsome Htruthy) as (Hcalls & _ & Hok).
  repeat split; auto.
  unfold _validate_item_payload.
  destruct (filter _ required) as [| m ms]; [| discriminate].
  cbn [first_non_string required]. rewrite Hid, Hstr. discriminate.
Qed.

(** ** PUT *)

(** C4: a PUT with an identifier sends exactly one update call, keyed by
    that identifier, and answers 200 when the call succeeds; on the
    reference table the call sets [description] and [date] of the item
    under that identifier to the payload's values ([None] for an omitted
    one) and leaves its other attributes, [id] among them, and the other
    items as they were. *)
Theorem put_overwrites event context path item_id payload w :
  _parse_event event = Ok ("PUT", path, item_id, PDict payload) ->
  truthy item_id = true ->
  let c := put_call item_id payload in
  let x := lambda_handler event context w in
  (calls (after x) = (calls w ++ [c])%list /\
   store (after x) = snd (invoke c (store w)) /\
   (forall v, fst (invoke c (store w)) = Ok v -> outcome x = Ok (reply 200 "updated"))) /\
  (forall k st old,
     MemTable.scalar item_id = Some k ->
     MemTable.lookup k st = Some old ->
     let st' := snd (MemTable.run c st) in
     (exists v, fst (MemTable.run c st) = Ok v) /\
     (exists new,
         MemTable.lookup k st' = Some new /\
         dict_get "description" new = Some (get "description" payload) /\
         dict_get "date" new = Some (get "date" payload) /\
         (forall a, a <> "description" -> a <> "date" ->
                    dict_get a new = dict_get a old)) /\
     (forall k', MemTable.key_eqb k k' = false ->
                 MemTable.lookup k' st' = MemTable.lookup k' st)).
Proof.
  intros Hparse Hid c x. split.
  - subst x. rewrite handler_of_dispatch.
    rewrite (dispatch_put _ _ _ _ _ Hparse). rewrite Hid. cbn [negb].
    destruct (guarded_call c 200 "updated" w) as (Hcalls & Hstore & Hok & _).
    fold c. destruct (try_except _ _ _ w) as [[r | e] w'] eqn:Hx; cbn in *.
    + repeat split; auto.
    + destruct e; cbn; repeat split; auto;
        intros v Hv; specialize (Hok v Hv); discriminate.
  - intros k st old Hk Hold st'. subst st' c.
    rewrite (run_put_call _ _ _ _ Hk). cbn [fst snd].
    unfold MemTable.update. rewrite Hold.
    split; [eexists; reflexivity |]. split.
    + eexists. split; [apply lookup_modify_same; exact Hold |].
      unfold MemTable.assign. cbn [fold_left fst snd].
      repeat split.
      * rewrite !dict_get_set. reflexivity.
      * rewrite !dict_get_set. reflexivity.
      * intros a Hd Ht. rewrite !dict_get_set.
        destruct (String.eqb_spec a "date"); [contradiction |].
        destruct (String.eqb_spec a "description"); [contradiction |].
        reflexivity.
    + intros k' Hne. apply lookup_modify_other. exact Hne.
Qed.

(** ** POST and the validator *)

Lemma validate_refines_spec (payload : pydict) :
  _validate_item_payload payload = spec_validate payload.
Proof.
  unfold _validate_item_payload, spec_validate, wrong_type, required.
  cbn [filter].
  destruct (dict_mem "id" payload), (dict_mem "description" payload),
    (dict_mem "date" payload); cbn [negb]; try reflexivity.
  cbv zeta. cbn [first_non_string].
  destruct (is_str (get "id" payload)), (is_str (get "description" payload)),
    (is_str (get "date" payload)); reflexivity.
Qed.


(** ** Every path *)

Lemma uniform_reply status text : uniform (reply status text).
Proof. split; [reflexivity | intros _; exists text; reflexivity]. Qed.

Lemma uniformly_message status text : uniformly (respond (S := S) status (message text)).
Proof. intros w. rewrite respond_message. apply uniform_reply. Qed.

Lemma uniformly_success status v :
  status < 400 -> uniformly (respond (S := S) status v).
Proof.
  intros Hlt w. unfold respond, lift, _response, json_dumps.
  destruct v; cbn; try (split; [reflexivity | cbn; lia]);
    match goal with |- context [if ?c then _ else _] => destruct c end;
    cbn; try exact I; split; try reflexivity; cbn; lia.
Qed.

Lemma uniformly_internal : uniformly (internal_error (S := S)).
Proof. apply uniformly_message. Qed.

Lemma uniformly_try (m h : M S response) classes :
  uniformly m -> uniformly h -> uniformly (try_except m classes h).
Proof.
  intros Hm Hh w. unfold try_except. specialize (Hm w).
  destruct (m w) as [[r | e] w']; [exact Hm |].
  destruct (classes e); [apply Hh | exact I].
Qed.

Lemma uniformly_bind {A} (m : M S A) (k : A -> M S response) :
  (forall a, uniformly (k a)) -> uniformly (bind m k).
Proof.
  intros Hk w. cbn [bind M_monad].
  destruct (m w) as [[a | e] w']; [apply Hk | exact I].
Qed.

Lemma uniformly_dispatch event : uniformly (dispatch event).
Proof.
  unfold dispatch. apply uniformly_bind. intros [[[method path] item_id] body].
  apply uniformly_bind. intros payload.
  repeat match goal with
         | |- uniformly (if ?c then _ else _) => destruct c
         | |- uniformly (match ?c with Some _ => _ | None => _ end) => destruct c
         | |- uniformly (let _ := _ in _) => cbv zeta
         | |- uniformly (try_except _ _ _) => apply uniformly_try
         | |- uniformly (bind _ _) => apply uniformly_bind; intros ?
         | |- uniformly internal_error => apply uniformly_internal
         | |- uniformly (respond _ (message _)) => apply uniformly_message
         | |- uniformly (respond _ _) => apply uniformly_success; lia
         end.
Qed.

(** C9: whatever the envelope and the table, the handler returns a
    response with exactly the four fixed headers, and when its status is an
    error status its body is the JSON text of a mapping whose only field is
    a string [message]. *)
Theorem uniform_envelope event context w :
  exists r w',
    lambda_handler event context w = (Ok r, w') /\
    headers r =
      [("Access-Control-Allow-Origin", "*");
       ("Access-Control-Allow-Methods", "GET,POST,PUT,DELETE,OPTIONS");
       ("Access-Control-Allow-Headers", "Content-Type,Authorization");
       ("Content-Type", "application/json")] /\
    (400 <= statusCode r -> exists text, body r = JsonText (PDict [("message", PStr text)])).
Proof.
  rewrite handler_of_dispatch. pose proof (uniformly_dispatch event w) as Hd.
  destruct (dispatch event w) as [[r | e] w'].
  - exists r, w'. destruct Hd as [Hh Hb]. auto.
  - destruct e; eexists; eexists; (split; [reflexivity |]);
      (split; [reflexivity | intros _; eexists; reflexivity]).
Qed.

End Dispatch.

(** ** Create, then read *)


(** ** The identifier read from the path *)

Lemma join_nonempty sep p ps :
  Str.nonempty p = true -> Str.nonempty (Str.join sep (p :: ps)) = true.
Proof.
  intros Hp. destruct p as [| c p]; [discriminate |].
  destruct ps; reflexivity.
Qed.

Lemma segments_nonempty parts :
  Forall (fun s => Str.nonempty s = true) (filter Str.nonempty parts).
Proof.
  apply Forall_forall. intros s Hin. apply filter_In in Hin. tauto.
Qed.

(** How [_parse_event] arrives at the identifier it returns. *)
Lemma parse_event_item_id event method path item_id body :
  _parse_event event = Ok (method, path, item_id, body) ->
  exists explicit,
    path_param_id event = Ok explicit /\
    (if truthy explicit then item_id = explicit
     else exists segments,
         segments_of path = Ok segments /\
         item_id = id_from_segments segments explicit).
Proof.
  unfold _parse_event. cbn [bind result_monad ret]. intros H.
  destruct (attr_get "httpMethod" event) as [legacy |]; [| discriminate].
  match type of H with
  | context [match ?x with Ok _ => _ | Raise _ => _ end] =>
      destruct x as [method0 |]; [| discriminate]
  end.
  destruct (attr_upper method0) as [method1 |]; [| discriminate].
  destruct (attr_get "path" event) as [p |]; [| discriminate].
  match type of H with
  | context [match ?x with Ok _ => _ | Raise _ => _ end] =>
      destruct x as [path0 |]; [| discriminate]
  end.
  destruct (path_param_id event) as [explicit |]; [| discriminate].
  exists explicit. split; [reflexivity |].
  destruct (truthy explicit); cbn [negb] in H.
  - destruct (attr_get "body" event) as [b |]; [| discriminate].
    match type of H with
    | context [match ?x with Ok _ => _ | Raise _ => _ end] =>
        destruct x as [body0 |]; [| discriminate]
    end.
    injection H as _ _ <- _. reflexivity.
  - destruct (segments_of path0) as [segments |] eqn:Hseg; [| discriminate].
    destruct (attr_get "body" event) as [b |]; [| discriminate].
    match type of H with
    | context [match ?x with Ok _ => _ | Raise _ => _ end] =>
        destruct x as [body0 |]; [| discriminate]
    end.
    injection H as _ <- <- _. exists segments. split; [exact Hseg | reflexivity].
Qed.

(** C3, with the name the code compares with: without an explicit
    binding, the fallback resolves an identifier exactly when the path has
    at least two non-empty segments and the first one equals the fixed name
    Items case-insensitively, whatever collection name is configured; the
    identifier is then the remaining segments joined with a slash. *)
Theorem path_fallback event method path item_id body explicit :
  _parse_event event = Ok (method, PStr path, item_id, body) ->
  path_param_id event = Ok explicit ->
  truthy explicit = false ->
  let segments := filter Str.nonempty (Str.split_on "/" path) in
  let hit := (2 <= length segments)%nat /\
             Str.lower (hd EmptyString segments) = Str.lower "Items" in
  (hit -> item_id = PStr (Str.join "/" (tl segments)) /\ truthy item_id = true) /\
  (~ hit -> truthy item_id = false).
Proof.
  intros Hparse Hexp Hfalsy segments hit.
  destruct (parse_event_item_id _ _ _ _ _ Hparse) as (explicit' & Hexp' & Hid).
  rewrite Hexp in Hexp'. injection Hexp' as <-. rewrite Hfalsy in Hid.
  destruct Hid as (segs & Hsegs & ->). cbn in Hsegs. injection Hsegs as <-.
  fold segments. pose proof (segments_nonempty (Str.split_on "/" path)) as Hall.
  fold segments in Hall. subst hit.
  destruct segments as [| first [| second rest]]; cbn [id_from_segments hd tl length].
  - split; [intros [Hlen _]; lia | intros _; exact Hfalsy].
  - split; [intros [Hlen _]; cbn in Hlen; lia | intros _; exact Hfalsy].
  - change (Str.lower "Items") with "items".
    destruct (String.eqb_spec (Str.lower first) "items") as [Heq | Hne].
    + split; [| intros Hno; exfalso; apply Hno; split; [cbn; lia | exact Heq]].
      intros _. split; [reflexivity |].
      cbn [truthy]. apply join_nonempty.
      inversion Hall as [| ? ? _ Htl]; subst. inversion Htl; subst. assumption.
    + split; [intros [_ Heq]; contradiction | intros _; exact Hfalsy].
Qed.

(** C3 does not hold for a configured name: with the collection configured
    as Todos, the
    path /Todos/a1 has two segments whose first equals the configured name,
    and no identifier is resolved. *)
Lemma configured_name_is_ignored :
  let name := TABLE_NAME (fun _ => Some "Todos") in
  let event := request "GET" "/Todos/a1" PNone in
  name = "Todos" /\
  path_param_id event = Ok PNone /\
  filter Str.nonempty (Str.split_on "/" "/Todos/a1") = ["Todos"; "a1"] /\
  _parse_event event = Ok ("GET", PStr "/Todos/a1", PNone, PDict []) /\
  ~ fallback_for name.
Proof.
  cbv zeta. repeat (split; [reflexivity |]).
  intros Hfor.
  destruct (Hfor (request "GET" "/Todos/a1" PNone) "GET" "/Todos/a1" PNone (PDict []) PNone
              eq_refl eq_refl eq_refl) as [Hhit _].
  destruct Hhit as [Hid _]; [split; [cbn; lia | reflexivity] | discriminate].
Qed.

(** ** The body field *)

(** C1: the body text null reaches the handler as a [None] payload and not
    as an empty mapping: the request that lists the table when its body is
    absent or empty is answered 500 when its body is the text null, with
    every table and before any call to it. *)
Theorem null_body_is_not_normalized {S} (T : Table S) (st : S) :
  _parse_event (request "GET" "/Items" PNone) = Ok ("GET", PStr "/Items", PNone, PDict []) /\
  _parse_event (request "GET" "/Items" (PStr EmptyString))
    = Ok ("GET", PStr "/Items", PNone, PDict []) /\
  _parse_event (request "GET" "/Items" (PStr "null")) = Ok ("GET", PStr "/Items", PNone, PNone) /\
  run_handler T (request "GET" "/Items" (PStr "null")) st
    = (Ok (reply 500 "internal error"), World st []) /\
  calls (after (run_handler T (request "GET" "/Items" PNone) st)) = [scan].
Proof.
  assert (Hnull : _parse_event (request "GET" "/Items" (PStr "null"))
                  = Ok ("GET", PStr "/Items", PNone, PNone)) by (vm_compute; reflexivity).
  assert (Hnone : _parse_event (request "GET" "/Items" PNone)
                  = Ok ("GET", PStr "/Items", PNone, PDict [])) by (vm_compute; reflexivity).
  split; [exact Hnone |]. split; [vm_compute; reflexivity |].
  split; [exact Hnull |]. unfold run_handler. split.
  - rewrite handler_of_dispatch. unfold dispatch. cbn [bind M_monad lift].
    rewrite Hnull. reflexivity.
  - rewrite handler_of_dispatch, (dispatch_get _ _ _ _ _ Hnone).
    cbn [truthy]. unfold try_except, call. cbn [bind M_monad store calls app].
    destruct (invoke scan st) as [[resp | e] s']; cbn [lift].
    + destruct (attr_get_default "Items" (PList []) resp) as [items | e]; [| destruct e; reflexivity].
      unfold respond, lift. destruct (_response 200 items) as [r | e]; [reflexivity | destruct e; reflexivity].
    + destruct e; reflexivity.
Qed.

(** C8 does not hold for every body: an OPTIONS request whose body is not
    JSON text is answered 400, not 204. *)
Lemma options_with_invalid_body :
  let event := request "options" "/Items" (PStr "{") in
  Str.upper "options" = "OPTIONS" /\
  Json.loads "{" = None /\
  run_handler MemTable.table event [] = (Ok (reply 400 invalid_json), World [] []) /\
  statusCode (reply 400 invalid_json) <> statusCode no_content.
Proof.
  cbv zeta. repeat split; try (vm_compute; reflexivity).
  cbn. discriminate.
Qed.

(** ** The theorems at concrete requests *)

Lemma options_no_content_witness :
  let event := request "options" "/Items/a1" (PStr (json_text "{'id': 'a1'}")) in
  _parse_event event = Ok ("OPTIONS", PStr "/Items/a1", PStr "a1", PDict [("id", PStr "a1")]) /\
  lambda_handler (T := failing ClientError) event PNone (World tt []) = (Ok no_content, World tt []).
Proof.
  cbv zeta.
  assert (Hparse : _parse_event (request "options" "/Items/a1" (PStr (json_text "{'id': 'a1'}")))
                   = Ok ("OPTIONS", PStr "/Items/a1", PStr "a1", PDict [("id", PStr "a1")]))
    by (vm_compute; reflexivity).
  split; [exact Hparse |].
  exact (options_no_content (T := failing ClientError) _ PNone _ _ _ (World tt []) Hparse).
Defined.


Lemma delete_id_untyped_witness :
  let event := request "DELETE" "/Items" (PStr (json_text "{'id': 7}")) in
  let x := lambda_handler (T := accepting) event PNone (World tt []) in
  _parse_event event = Ok ("DELETE", PStr "/Items", PNone, PDict [("id", PInt 7)]) /\
  calls (after x) = [delete_item (PDict [("id", PInt 7)])] /\
  outcome x = Ok (reply 200 "deleted") /\
  _validate_item_payload [("id", PInt 7)] <> None.
Proof.
  cbv zeta.
  assert (Hparse : _parse_event (request "DELETE" "/Items" (PStr (json_text "{'id': 7}")))
                   = Ok ("DELETE", PStr "/Items", PNone, PDict [("id", PInt 7)]))
    by (vm_compute; reflexivity).
  split; [exact Hparse |].
  destruct (delete_id_untyped (T := accepting) _ PNone _ _ _ (PInt 7) (World tt [])
              Hparse eq_refl eq_refl eq_refl eq_refl) as (Hcalls & Hok & Hval).
  split; [exact Hcalls |]. split; [exact (Hok _ eq_refl) | exact Hval].
Defined.


Lemma path_fallback_witness :
  let event := request "GET" "/ITEMS/2024//a1/" PNone in
  _parse_event event = Ok ("GET", PStr "/ITEMS/2024//a1/", PStr "2024/a1", PDict []) /\
  path_param_id event = Ok PNone /\
  PStr "2024/a1" =
    PStr (Str.join "/" (tl (filter Str.nonempty (Str.split_on "/" "/ITEMS/2024//a1/")))).
Proof.
  cbv zeta.
  assert (Hparse : _parse_event (request "GET" "/ITEMS/2024//a1/" PNone)
                   = Ok ("GET", PStr "/ITEMS/2024//a1/", PStr "2024/a1", PDict []))
    by (vm_compute; reflexivity).
  assert (Hexp : path_param_id (request "GET" "/ITEMS/2024//a1/" PNone) = Ok PNone)
    by reflexivity.
  split; [exact Hparse |]. split; [exact Hexp |].
  destruct (path_fallback _ _ _ _ _ _ Hparse Hexp eq_refl) as [Hhit _].
  apply Hhit. split; [cbn; lia | reflexivity].
Defined.

Lemma put_overwrites_witness :
  let event := request "PUT" "/Items/a1" (PStr (json_text "{'description': 'tea'}")) in
  let before := [(MemTable.KS "a1", [("id", PStr "a1"); ("description", PStr "milk");
                                      ("date", PStr "2024-01-01"); ("shop", PStr "corner")]);
                 (MemTable.KS "b2", [("id", PStr "b2")])] in
  let x := lambda_handler (T := MemTable.table) event PNone (World before []) in
  _parse_event event
    = Ok ("PUT", PStr "/Items/a1", PStr "a1", PDict [("description", PStr "tea")]) /\
  outcome x = Ok (reply 200 "updated") /\
  calls (after x) = [put_call (PStr "a1") [("description", PStr "tea")]] /\
  (exists new,
      MemTable.lookup (MemTable.KS "a1") (store (after x)) = Some new /\
      dict_get "description" new = Some (PStr "tea") /\
      dict_get "date" new = Some PNone /\
      dict_get "id" new = Some (PStr "a1") /\
      dict_get "shop" new = Some (PStr "corner")) /\
  MemTable.lookup (MemTable.KS "b2") (store (after x)) = Some [("id", PStr "b2")].
Proof.
  cbv zeta.
  assert (Hparse : _parse_event (request "PUT" "/Items/a1" (PStr (json_text "{'description': 'tea'}")))
                   = Ok ("PUT", PStr "/Items/a1", PStr "a1", PDict [("description", PStr "tea")]))
    by (vm_compute; reflexivity).
  split; [exact Hparse |].
  destruct (put_overwrites (T := MemTable.table) _ PNone _ _ _
              (World [(MemTable.KS "a1", [("id", PStr "a1"); ("description", PStr "milk");
                                          ("date", PStr "2024-01-01"); ("shop", PStr "corner")]);
                      (MemTable.KS "b2", [("id", PStr "b2")])] [])
              Hparse eq_refl) as [(Hcalls & Hstore & Hok) Htable].
  split; [exact (Hok _ eq_refl) |]. split; [exact Hcalls |].
  rewrite Hstore.
  destruct (Htable (MemTable.KS "a1")
              [(MemTable.KS "a1", [("id", PStr "a1"); ("description", PStr "milk");
                                   ("date", PStr "2024-01-01"); ("shop", PStr "corner")]);
               (MemTable.KS "b2", [("id", PStr "b2")])]
              [("id", PStr "a1"); ("description", PStr "milk");
               ("date", PStr "2024-01-01"); ("shop", PStr "corner")]
              eq_refl eq_refl) as (_ & (new & Hnew & Hd & Ht & Hrest) & Hothers).
  split.
  - exists new. split; [exact Hnew |]. split; [exact Hd |]. split; [exact Ht |].
    split; [rewrite Hrest; [reflexivity | discriminate | discriminate]
           | rewrite Hrest; [reflexivity | discriminate | discriminate]].
  - exact (Hothers (MemTable.KS "b2") eq_refl).
Defined.



(** * Further properties of the handler *)

Section Invocation.

Context {S : Type} {T : Table S}.

Lemma response_status status v r :
  _response status v = Ok r -> statusCode r = status.
Proof.
  unfold _response, json_dumps.
  destruct v; cbn; try (intros [= <-]; reflexivity);
    match goal with |- context [if ?c then _ else _] => destruct c end;
    cbn; try discriminate; intros [= <-]; reflexivity.
Qed.

Lemma always_respond (P : response -> Prop) status v :
  (forall r, statusCode r = status -> P r) -> always (S := S) P (respond status v).
Proof.
  intros HP w. unfold respond, lift.
  destruct (_response status v) as [r | e] eqn:Hr; [| exact I].
  apply HP. exact (response_status _ _ _ Hr).
Qed.

Lemma always_try (P : response -> Prop) (m h : M S response) classes :
  always P m -> always P h -> always P (try_except m classes h).
Proof.
  intros Hm Hh w. unfold try_except. specialize (Hm w).
  destruct (m w) as [[r | e] w']; [exact Hm |].
  destruct (classes e); [apply Hh | exact I].
Qed.

Lemma always_bind {A} (P : response -> Prop) (m : M S A) (k : A -> M S response) :
  (forall a, always P (k a)) -> always P (bind m k).
Proof.
  intros Hk w. cbn [bind M_monad].
  destruct (m w) as [[a | e] w']; [apply Hk | exact I].
Qed.

Ltac walk_dispatch leaf :=
  unfold dispatch, internal_error;
  repeat match goal with
         | |- _ (bind _ _) => first [apply always_bind | fail 1]; intros ?
         | |- _ (match ?x with (_, _) => _ end) => destruct x
         | |- _ (if ?c then _ else _) => destruct c
         | |- _ (match ?c with Some _ => _ | None => _ end) => destruct c
         | |- _ (let _ := _ in _) => cbv zeta
         | |- _ (try_except _ _ _) => apply always_try
         | |- _ (respond _ _) => leaf
         end.

Lemma dispatch_statuses event :
  always (fun r => In (statusCode r) statuses) (dispatch event).
Proof.
  walk_dispatch ltac:(apply always_respond; intros r ->; cbn; tauto).
Qed.

(** X1: whatever the envelope and the table do, the status of the
    response is one of 200, 201, 204, 400, 404, 405 and 500. *)
Theorem handler_statuses event context w :
  exists r w',
    lambda_handler event context w = (Ok r, w') /\
    In (statusCode r) [200; 201; 204; 400; 404; 405; 500].
Proof.
  rewrite handler_of_dispatch. pose proof (dispatch_statuses event w) as Hd.
  destruct (dispatch event w) as [[r | e] w'].
  - exists r, w'. split; [reflexivity | exact Hd].
  - destruct e; eexists; eexists; (split; [reflexivity | cbn; tauto]).
Qed.

End Invocation.

Section Calls.

Context {S : Type} {T : Table S}.

Lemma silent_lift {A} (r : result A) : silent (S := S) (lift r).
Proof. intros w. reflexivity. Qed.

Lemma silent_respond status v : silent (S := S) (respond status v).
Proof. apply silent_lift. Qed.

Lemma silent_bind {A B} (m : M S A) (k : A -> M S B) :
  silent m -> (forall a, silent (k a)) -> silent (bind m k).
Proof.
  intros Hm Hk w. cbn [bind M_monad]. specialize (Hm w).
  destruct (m w) as [[a | e] w']; cbn in Hm; subst w'; [apply Hk | reflexivity].
Qed.

Lemma frugal_silent {A} (m : M S A) : silent m -> frugal m.
Proof. intros Hm w. left. apply Hm. Qed.

Lemma frugal_bind {A B} (m : M S A) (k : A -> M S B) :
  silent m -> (forall a, frugal (k a)) -> frugal (bind m k).
Proof.
  intros Hm Hk w. cbn [bind M_monad]. specialize (Hm w).
  destruct (m w) as [[a | e] w']; cbn in Hm; subst w'; [apply Hk | left; reflexivity].
Qed.

(** The world after a guarded call is the one the call leaves. *)
Lemma after_guarded {A} (c : table_call) (k : pyval -> M S A) (h : M S A) classes w :
  (forall a, silent (k a)) -> silent h ->
  after (try_except (bind (call c) k) classes h w) = sent c w.
Proof.
  intros Hk Hh. unfold try_except, call, sent. cbn [bind M_monad].
  destruct (invoke c (store w)) as [[a | e] s']; cbn [snd].
  - specialize (Hk a (World s' (calls w ++ [c]))).
    destruct (k a _) as [[r | e] w']; cbn in Hk; subst w'; [reflexivity |].
    destruct (classes e); [apply Hh | reflexivity].
  - destruct (classes e); [apply Hh | reflexivity].
Qed.

Lemma frugal_guarded {A} (c : table_call) (k : pyval -> M S A) (h : M S A) classes :
  (forall a, silent (k a)) -> silent h ->
  frugal (try_except (bind (call c) k) classes h).
Proof. intros Hk Hh w. right. exists c. apply after_guarded; assumption. Qed.

(** What a guarded call answers when the call raises. *)
Lemma guarded_raise (c : table_call) (k : pyval -> M S response) e w :
  fst (invoke c (store w)) = Raise e ->
  try_except (bind (call c) k) boto_errors internal_error w =
    (if boto_errors e then Ok (reply 500 "internal error") else Raise e, sent c w).
Proof.
  intros He. unfold try_except, call, sent. cbn [bind M_monad].
  destruct (invoke c (store w)) as [r s']; cbn in He; subst r; cbn [snd].
  destruct (boto_errors e); reflexivity.
Qed.

Lemma after_handler event context w :
  after (lambda_handler event context w) = after (dispatch event w).
Proof.
  rewrite handler_of_dispatch.
  destruct (dispatch event w) as [[r | e] w']; [reflexivity | destruct e; reflexivity].
Qed.

Ltac silence :=
  repeat match goal with
         | |- forall _, _ => intros ?
         | |- silent (respond _ _) => apply silent_respond
         | |- silent internal_error => apply silent_respond
         | |- silent (lift _) => apply silent_lift
         | |- silent (bind _ _) => apply silent_bind
         | |- silent (if ?c then _ else _) => destruct c
         end.

(** An accepted request with a planned call runs that call under the
    guard of the two table error classes, and nothing else. *)
Lemma dispatch_call event method path item_id payload c w :
  _parse_event event = Ok (method, path, item_id, PDict payload) ->
  planned_call method item_id payload = Some c ->
  exists k : pyval -> M S response,
    (forall a, silent (k a)) /\
    dispatch event w = try_except (bind (call c) k) boto_errors internal_error w.
Proof.
  intros Hparse. unfold dispatch, planned_call. cbn [bind M_monad lift].
  rewrite Hparse. cbn [attr_keys]. cbv zeta.
  repeat match goal with
         | |- context [if ?b then _ else _] =>
             lazymatch b with
             | String.eqb _ _ => destruct b
             | truthy _ => destruct b eqn:?
             end
         | |- context [match _validate_item_payload ?p with _ => _ end] =>
             destruct (_validate_item_payload p)
         end; cbn [negb]; try discriminate;
    intros [= <-]; eexists; (split; [| reflexivity]);
    intros a0 w0; cbv beta;
    repeat match goal with
           | |- context [match ?x with _ => _ end] => destruct x
           end; reflexivity.
Qed.

(** An accepted request without a planned call leaves the world alone. *)
Lemma dispatch_quiet event method path item_id payload w :
  _parse_event event = Ok (method, path, item_id, PDict payload) ->
  planned_call method item_id payload = None ->
  after (dispatch event w) = w.
Proof.
  intros Hparse. unfold dispatch, planned_call. cbn [bind M_monad lift].
  rewrite Hparse. cbn [attr_keys]. cbv zeta.
  repeat match goal with
         | |- context [if ?b then _ else _] =>
             lazymatch b with
             | String.eqb _ _ => destruct b
             | truthy _ => destruct b eqn:?
             end
         | |- context [match _validate_item_payload ?p with _ => _ end] =>
             destruct (_validate_item_payload p)
         end; cbn [negb]; try discriminate; reflexivity.
Qed.

Lemma frugal_dispatch event : frugal (dispatch event).
Proof.
  unfold dispatch, internal_error.
  apply frugal_bind; [apply silent_lift |]. intros [[[method path] item_id] body].
  apply frugal_bind; [apply silent_lift |]. intros payload. cbv zeta.
  repeat match goal with
         | |- frugal (if ?c then _ else _) => destruct c
         | |- frugal (match ?c with Some _ => _ | None => _ end) => destruct c
         | |- frugal (respond _ _) => apply frugal_silent, silent_respond
         | |- frugal (try_except _ _ _) => apply frugal_guarded; silence
         end.
Qed.

(** X2: one invocation sends at most one call to the table, whatever the
    envelope: either the world is left as it was, or the calls grow by
    exactly one and the table is in the state that call left. *)
Theorem one_call_at_most event context w :
  let x := lambda_handler event context w in
  after x = w \/
  exists c,
    calls (after x) = (calls w ++ [c])%list /\
    store (after x) = snd (invoke c (store w)).
Proof.
  cbv zeta. rewrite after_handler.
  destruct (frugal_dispatch event w) as [Hw | [c Hc]].
  - left. exact Hw.
  - right. exists c. rewrite Hc. split; reflexivity.
Qed.

(** X3: the call of an accepted request is decided by its method, its
    identifier and its payload alone: the read of a GET, the put of a valid
    create, the update of a PUT with an identifier, the delete of a DELETE
    with one, and no call otherwise. *)
Theorem the_call_sent event context method path item_id payload w :
  _parse_event event = Ok (method, path, item_id, PDict payload) ->
  after (lambda_handler event context w) =
    match planned_call method item_id payload with
    | Some c => sent c w
    | None => w
    end.
Proof.
  intros Hparse. rewrite after_handler.
  destruct (planned_call method item_id payload) as [c |] eqn:Hplan.
  - destruct (dispatch_call _ _ _ _ _ c w Hparse Hplan) as (k & Hk & ->).
    apply after_guarded; [exact Hk | apply silent_respond].
  - exact (dispatch_quiet _ _ _ _ _ w Hparse Hplan).
Qed.

(** X4: when the call of an accepted request fails with a [ClientError]
    or a [BotoCoreError], whichever the operation, the answer is 500 with
    the generic message. *)
Theorem table_failure_is_500 event context method path item_id payload c e w :
  _parse_event event = Ok (method, path, item_id, PDict payload) ->
  planned_call method item_id payload = Some c ->
  fst (invoke c (store w)) = Raise e ->
  boto_errors e = true ->
  lambda_handler event context w = (Ok (reply 500 "internal error"), sent c w).
Proof.
  intros Hparse Hplan He Hboto. rewrite handler_of_dispatch.
  destruct (dispatch_call _ _ _ _ _ c w Hparse Hplan) as (k & _ & ->).
  rewrite (guarded_raise c k e w He), Hboto. reflexivity.
Qed.

End Calls.

(** C7: a failure of the table call never leaves the handler, and it is
    answered 500 with the generic message whatever its class, with one
    exception: a [ValueError] raised by the table is not caught where the
    call is made, falls to the clause for bad requests, and is answered 400
    with the failure's own text. *)
Theorem table_failure_at_boundary {S} {T : Table S} event context method path item_id
    payload c e (w : world S) :
  _parse_event event = Ok (method, path, item_id, PDict payload) ->
  planned_call method item_id payload = Some c ->
  fst (invoke c (store w)) = Raise e ->
  lambda_handler event context w =
    (Ok (match e with
         | ValueError ve => reply 400 ve
         | _ => reply 500 "internal error"
         end), sent c w).
Proof.
  intros Hparse Hplan He. rewrite handler_of_dispatch.
  destruct (dispatch_call _ _ _ _ _ c w Hparse Hplan) as (k & _ & ->).
  rewrite (guarded_raise c k e w He). destruct e; reflexivity.
Qed.

Section Outcomes.

Context {S : Type} {T : Table S}.

(** What a guarded call answers when the call returns. *)
Lemma guarded_return (c : table_call) (k : pyval -> M S response) v w :
  fst (invoke c (store w)) = Ok v ->
  try_except (bind (call c) k) boto_errors internal_error w =
    match k v (sent c w) with
    | (Raise e, w') => if boto_errors e then internal_error w' else (Raise e, w')
    | r => r
    end.
Proof.
  intros Hv. unfold try_except, call, sent. cbn [bind M_monad].
  destruct (invoke c (store w)) as [r s']; cbn in Hv; subst r. reflexivity.
Qed.

(** X5: a create whose request carries an identifier in its path or
    binding is turned away with 400 whatever its payload, valid or not, and
    the table is not called. *)
Theorem post_with_identifier event context path item_id payload w :
  _parse_event event = Ok ("POST", path, item_id, PDict payload) ->
  truthy item_id = true ->
  lambda_handler event context w =
    (Ok (reply 400 "POST ではパスに id を含めないでください"), w).
Proof.
  intros Hparse Hid. rewrite handler_of_dispatch, (dispatch_post _ _ _ _ _ Hparse), Hid.
  reflexivity.
Qed.

(** X6: an update without identifier is turned away with 400 whatever its
    payload, an identifier in the payload included, and the table is not
    called. *)
Theorem put_without_identifier event context path item_id payload w :
  _parse_event event = Ok ("PUT", path, item_id, PDict payload) ->
  truthy item_id = false ->
  lambda_handler event context w = (Ok (reply 400 "id が必要です"), w).
Proof.
  intros Hparse Hid. rewrite handler_of_dispatch, (dispatch_put _ _ _ _ _ Hparse), Hid.
  reflexivity.
Qed.

(** X7: an accepted request whose method is none of OPTIONS, GET, POST,
    PUT and DELETE is answered 405, and the table is not called. *)
Theorem unsupported_method event context method path item_id payload w :
  _parse_event event = Ok (method, path, item_id, PDict payload) ->
  ~ In method ["OPTIONS"; "GET"; "POST"; "PUT"; "DELETE"] ->
  lambda_handler event context w = (Ok (reply 405 "unsupported"), w).
Proof.
  intros Hparse Hnot. rewrite handler_of_dispatch.
  unfold dispatch. cbn [bind M_monad lift]. rewrite Hparse. cbn [attr_keys].
  repeat match goal with
         | |- context [String.eqb method ?m] =>
             destruct (String.eqb_spec method m) as [-> | _];
             [exfalso; apply Hnot; cbn; tauto |]
         end.
  reflexivity.
Qed.

(** X8: a GET with an identifier asks the table for the item under that
    identifier.  When the answer holds no item, or an empty one, the reply is
    404; when it holds an item, the reply is 200 with the JSON text of that
    item, or 500 when the item holds a value that has no JSON text. *)
Theorem get_by_id event context path item_id payload w :
  _parse_event event = Ok ("GET", path, item_id, PDict payload) ->
  truthy item_id = true ->
  let c := get_item (PDict [("id", item_id)]) in
  let x := lambda_handler event context w in
  (forall resp,
      fst (invoke c (store w)) = Ok (PDict resp) ->
      truthy (get "Item" resp) = false ->
      x = (Ok (reply 404 "not found"), sent c w)) /\
  (forall resp item,
      fst (invoke c (store w)) = Ok (PDict resp) ->
      get "Item" resp = PDict item ->
      item <> [] ->
      x = (Ok (if all_serializable item
               then Response 200 CORS_HEADERS (JsonText (PDict item))
               else reply 500 "internal error"), sent c w)).
Proof.
  intros Hparse Hid c x. subst x.
  rewrite handler_of_dispatch, (dispatch_get _ _ _ _ _ Hparse), Hid. fold c.
  split.
  - intros resp Hresp Hitem. rewrite (guarded_return _ _ _ _ Hresp).
    cbn [bind M_monad lift attr_get attr_get_default]. fold (get "Item" resp).
    rewrite Hitem. reflexivity.
  - intros resp item Hresp Hitem Hne. rewrite (guarded_return _ _ _ _ Hresp).
    cbn [bind M_monad lift attr_get attr_get_default]. fold (get "Item" resp).
    rewrite Hitem. destruct item as [| kv item]; [contradiction |].
    cbn [truthy negb]. unfold respond, lift, _response, json_dumps.
    change (serializable (PDict (kv :: item))) with (all_serializable (kv :: item)).
    destruct (all_serializable (kv :: item)); reflexivity.
Qed.

(** X9: a GET without identifier scans the table and answers 200 with
    the JSON text of the list under [Items] in the answer, the empty list
    when the answer has no such entry; a listed value without JSON text
    makes it 500. *)
Theorem get_list event context path item_id payload w :
  _parse_event event = Ok ("GET", path, item_id, PDict payload) ->
  truthy item_id = false ->
  let x := lambda_handler event context w in
  (forall resp items,
      fst (invoke scan (store w)) = Ok (PDict resp) ->
      dict_get "Items" resp = Some (PList items) ->
      x = (Ok (if forallb serializable items
               then Response 200 CORS_HEADERS (JsonText (PList items))
               else reply 500 "internal error"), sent scan w)) /\
  (forall resp,
      fst (invoke scan (store w)) = Ok (PDict resp) ->
      dict_get "Items" resp = None ->
      x = (Ok (Response 200 CORS_HEADERS (JsonText (PList []))), sent scan w)).
Proof.
  intros Hparse Hid x. subst x.
  rewrite handler_of_dispatch, (dispatch_get _ _ _ _ _ Hparse), Hid.
  split.
  - intros resp items Hresp Hitems. rewrite (guarded_return _ _ _ _ Hresp).
    cbn [bind M_monad lift attr_get_default]. unfold get_default. rewrite Hitems.
    unfold respond, lift, _response, json_dumps.
    change (serializable (PList items)) with (forallb serializable items).
    destruct (forallb serializable items); reflexivity.
  - intros resp Hresp Hitems. rewrite (guarded_return _ _ _ _ Hresp).
    cbn [bind M_monad lift attr_get_default]. unfold get_default. rewrite Hitems.
    reflexivity.
Qed.

(** X10: a create without identifier whose payload passes validation
    puts the payload as it was received, every further field included, and
    answers 201 when the put returns. *)
Theorem post_puts_payload event context path item_id payload v w :
  _parse_event event = Ok ("POST", path, item_id, PDict payload) ->
  truthy item_id = false ->
  _validate_item_payload payload = None ->
  fst (invoke (put_item (PDict payload)) (store w)) = Ok v ->
  lambda_handler event context w =
    (Ok (reply 201 "created"), sent (put_item (PDict payload)) w).
Proof.
  intros Hparse Hid Hvalid Hput.
  rewrite handler_of_dispatch, (dispatch_post _ _ _ _ _ Hparse), Hid, Hvalid.
  rewrite (guarded_return _ _ _ _ Hput). reflexivity.
Qed.

End Outcomes.

(** ** Create, then read, over any table *)



(** ** The normalizer *)

Lemma parse_event_split event :
  _parse_event event =
    match request_line event with
    | Ok (method, path, item_id) =>
        match payload_of event with
        | Ok body => Ok (method, path, item_id, body)
        | Raise e => Raise e
        end
    | Raise e => Raise e
    end.
Proof.
  unfold _parse_event, request_line, payload_of. cbn [bind result_monad ret].
  repeat match goal with
         | |- context [match ?x with Ok _ => _ | Raise _ => _ end] =>
             lazymatch x with
             | context [match _ with Ok _ => _ | Raise _ => _ end] => fail
             | _ => destruct x; try reflexivity
             end
         end.
  all: repeat match goal with
         | |- context [match ?x with _ => _ end] => destruct x; try reflexivity
         end.
Qed.

Lemma dispatch_ext {S} {T : Table S} e1 e2 (w : world S) :
  _parse_event e1 = _parse_event e2 -> dispatch e1 w = dispatch e2 w.
Proof. intros H. unfold dispatch. cbn [bind M_monad lift]. rewrite H. reflexivity. Qed.

Lemma handler_ext {S} {T : Table S} e1 e2 c1 c2 (w : world S) :
  _parse_event e1 = _parse_event e2 ->
  lambda_handler e1 c1 w = lambda_handler e2 c2 w.
Proof. intros H. rewrite !handler_of_dispatch, (dispatch_ext e1 e2 w H). reflexivity. Qed.

Lemma handler_parse_raises {S} {T : Table S} event context e (w : world S) :
  _parse_event event = Raise e ->
  lambda_handler event context w =
    (match e with
     | ValueError ve => Ok (reply 400 ve)
     | _ => Ok (reply 500 "internal error")
     end, w).
Proof.
  intros H. rewrite handler_of_dispatch. unfold dispatch. cbn [bind M_monad lift].
  rewrite H. destruct e; reflexivity.
Qed.

(** X11: when the body of an envelope is a non-empty string that is not
    JSON text, the answer is 400 with the message of the normalizer,
    whatever the method, and the table is not called. *)
Theorem invalid_json_body {S} {T : Table S} event context method path item_id text
    (w : world S) :
  request_line event = Ok (method, path, item_id) ->
  attr_get "body" event = Ok (PStr text) ->
  text <> EmptyString ->
  Json.loads text = None ->
  lambda_handler event context w = (Ok (reply 400 "Invalid JSON in request body"), w).
Proof.
  intros Hline Hbody Hne Hloads.
  apply (handler_parse_raises event context (ValueError invalid_json)).
  rewrite parse_event_split, Hline. unfold payload_of. cbn [bind result_monad].
  rewrite Hbody. destruct text as [| ch text]; [contradiction |].
  cbn [py_or truthy Str.nonempty]. rewrite Hloads. reflexivity.
Qed.

Lemma scan_once_empty fuel : Json.scan_once fuel EmptyString = None.
Proof. destruct fuel; reflexivity. Qed.

(** X12: a body that holds white space and nothing else is not taken for
    an empty body: it is answered 400 as text that is not JSON. *)
Theorem blank_body_is_invalid {S} {T : Table S} event context method path item_id text
    (w : world S) :
  request_line event = Ok (method, path, item_id) ->
  attr_get "body" event = Ok (PStr text) ->
  text <> EmptyString ->
  Json.skip_ws text = EmptyString ->
  lambda_handler event context w = (Ok (reply 400 "Invalid JSON in request body"), w).
Proof.
  intros Hline Hbody Hne Hblank.
  apply (handler_parse_raises event context (ValueError invalid_json)).
  rewrite parse_event_split, Hline. unfold payload_of. cbn [bind result_monad].
  rewrite Hbody. destruct text as [| ch text]; [contradiction |].
  cbn [py_or truthy Str.nonempty]. unfold Json.loads. rewrite Hblank, scan_once_empty.
  reflexivity.
Qed.

(** X13: how the payload follows from the body field of an accepted
    envelope: a falsy body (absent, [None], empty string, zero, [False],
    empty list or mapping) gives the empty mapping, a truthy body that is
    not a string is the payload itself, and a non-empty string is decoded. *)
Theorem body_resolution event method path item_id body b :
  _parse_event event = Ok (method, path, item_id, body) ->
  attr_get "body" event = Ok b ->
  (truthy b = false -> body = PDict []) /\
  (truthy b = true -> is_str b = false -> body = b) /\
  (forall text, b = PStr text -> text <> EmptyString -> Json.loads text = Some body).
Proof.
  rewrite parse_event_split.
  destruct (request_line event) as [[[m p] i] |]; [| discriminate].
  unfold payload_of. cbn [bind result_monad]. intros H Hb. rewrite Hb in H.
  repeat split.
  - intros Hf. unfold py_or in H. rewrite Hf in H. cbv beta iota in H.
    change (Json.loads "{}") with (Some (PDict [])) in H. cbn [ret result_monad] in H.
    congruence.
  - intros Ht Hs. cbv zeta in H.
    assert (Hraw : py_or b (PStr "{}") = b) by (unfold py_or; rewrite Ht; reflexivity).
    rewrite Hraw in H.
    assert (Hor : py_or b (PDict []) = b) by (unfold py_or; rewrite Ht; reflexivity).
    destruct b; try discriminate Hs; rewrite Hor in H;
      cbn [ret result_monad] in H; congruence.
  - intros text -> Hne. destruct text as [| ch text]; [contradiction |].
    cbn [py_or truthy Str.nonempty] in H.
    destruct (Json.loads (String ch text)); [cbn [ret result_monad] in H; congruence | discriminate].
Qed.

(** X14: an accepted envelope whose payload is not a mapping (a list, a
    number, a string, a truth value or [None]) is answered 500 with the
    generic message, whatever the method, and the table is not called. *)
Theorem payload_not_a_mapping {S} {T : Table S} event context method path item_id body
    (w : world S) :
  _parse_event event = Ok (method, path, item_id, body) ->
  (forall d, body <> PDict d) ->
  lambda_handler event context w = (Ok (reply 500 "internal error"), w).
Proof.
  intros Hparse Hnot. rewrite handler_of_dispatch.
  unfold dispatch. cbn [bind M_monad lift]. rewrite Hparse.
  destruct body; try reflexivity. exfalso. exact (Hnot d eq_refl).
Qed.

(** X15: an explicit binding of [id] that is not empty is the identifier,
    whatever the path says. *)
Theorem binding_wins event method path item_id body v :
  _parse_event event = Ok (method, path, item_id, body) ->
  path_param_id event = Ok v ->
  truthy v = true ->
  item_id = v.
Proof.
  intros Hparse Hv Ht.
  destruct (parse_event_item_id _ _ _ _ _ Hparse) as (v' & Hv' & Hid).
  rewrite Hv in Hv'. injection Hv' as <-. rewrite Ht in Hid. exact Hid.
Qed.

(** ** Identifiers with several segments *)

Lemma split_slash_free s : slash_free s = true -> Str.split_on "/" s = [s].
Proof.
  induction s as [| c s IH]; cbn; [reflexivity |].
  intros H. apply andb_true_iff in H. destruct H as [Hc Hs].
  destruct (Ascii.eqb c "/"); [discriminate |]. rewrite (IH Hs). reflexivity.
Qed.

Lemma split_append s t :
  slash_free s = true ->
  Str.split_on "/" (s ++ String "/" t) = s :: Str.split_on "/" t.
Proof.
  induction s as [| c s IH]; cbn; [reflexivity |].
  intros H. apply andb_true_iff in H. destruct H as [Hc Hs].
  destruct (Ascii.eqb c "/"); [discriminate |]. rewrite (IH Hs). reflexivity.
Qed.

(** Splitting undoes joining. *)
Lemma split_join segs :
  segs <> [] ->
  Forall (fun s => slash_free s = true) segs ->
  Str.split_on "/" (Str.join "/" segs) = segs.
Proof.
  induction segs as [| s segs IH]; [contradiction |].
  intros _ Hall. inversion Hall as [| ? ? Hs Hrest]; subst.
  destruct segs as [| s' segs].
  - cbn. apply split_slash_free. exact Hs.
  - change (Str.join "/" (s :: s' :: segs)) with (s ++ String "/" (Str.join "/" (s' :: segs))).
    rewrite (split_append _ _ Hs), IH; [reflexivity | discriminate | exact Hrest].
Qed.

Lemma filter_all_true {A} (f : A -> bool) l :
  Forall (fun a => f a = true) l -> filter f l = l.
Proof.
  induction 1 as [| a l Ha _ IH]; cbn; [reflexivity |]. rewrite Ha, IH. reflexivity.
Qed.

(** X16: an identifier made of non-empty segments without slash comes
    back unchanged from the path that puts it behind the collection name,
    however the name is capitalised. *)
Theorem nested_identifier event method item_id body explicit name segs :
  _parse_event event
    = Ok (method, PStr (String "/" (name ++ String "/" (Str.join "/" segs))), item_id, body) ->
  path_param_id event = Ok explicit ->
  truthy explicit = false ->
  Str.lower name = "items" ->
  slash_free name = true ->
  segs <> [] ->
  Forall (fun s => slash_free s = true) segs ->
  Forall (fun s => Str.nonempty s = true) segs ->
  item_id = PStr (Str.join "/" segs).
Proof.
  intros Hparse Hexp Hfalsy Hname Hfree Hne Hsegs Hfull.
  destruct (parse_event_item_id _ _ _ _ _ Hparse) as (explicit' & Hexp' & Hid).
  rewrite Hexp in Hexp'. injection Hexp' as <-. rewrite Hfalsy in Hid.
  destruct Hid as (segments & Hsplit & ->).
  cbn [segments_of attr_split_slash bind result_monad ret] in Hsplit.
  injection Hsplit as <-.
  rewrite (split_append _ _ Hfree), (split_join _ Hne Hsegs).
  cbn [filter].
  assert (Hn : Str.nonempty name = true) by (destruct name; [discriminate | reflexivity]).
  rewrite Hn, (filter_all_true _ _ Hfull).
  destruct segs as [| s segs]; [contradiction |].
  cbn [id_from_segments]. rewrite Hname. reflexivity.
Qed.

(** ** The fields of the envelope *)

Lemma parse_event_ext d1 d2 :
  (forall k, In k envelope_keys -> dict_get k d1 = dict_get k d2) ->
  _parse_event (PDict d1) = _parse_event (PDict d2).
Proof.
  intros H.
  unfold _parse_event, path_param_id, attr_get, attr_get_default, get_default.
  cbn [bind result_monad ret].
  rewrite (H "httpMethod"), (H "requestContext"), (H "path"), (H "rawPath"),
    (H "pathParameters"), (H "body") by (cbn; tauto).
  reflexivity.
Qed.

(** X17: the handler reads six fields of the envelope and nothing else:
    two envelopes that agree on the method, request context, path, raw path,
    path parameters and body are answered alike, whatever else they hold and
    whatever the invocation context is. *)
Theorem other_fields_ignored {S} {T : Table S} d1 d2 context1 context2 (w : world S) :
  (forall k, In k ["httpMethod"; "requestContext"; "path"; "rawPath";
                   "pathParameters"; "body"] ->
             dict_get k d1 = dict_get k d2) ->
  lambda_handler (PDict d1) context1 w = lambda_handler (PDict d2) context2 w.
Proof. intros H. apply handler_ext, parse_event_ext. exact H. Qed.

(** X18: the method is matched without regard to the case of its letters:
    two envelopes that differ only in the capitalisation of the method are
    answered alike. *)
Theorem method_case_ignored {S} {T : Table S} d1 d2 m1 m2 context (w : world S) :
  dict_get "httpMethod" d1 = Some (PStr m1) ->
  dict_get "httpMethod" d2 = Some (PStr m2) ->
  Str.upper m1 = Str.upper m2 ->
  (forall k, In k ["requestContext"; "path"; "rawPath"; "pathParameters"; "body"] ->
             dict_get k d1 = dict_get k d2) ->
  lambda_handler (PDict d1) context w = lambda_handler (PDict d2) context w.
Proof.
  intros H1 H2 Hup H. apply handler_ext.
  unfold _parse_event, path_param_id, attr_get, attr_get_default, get_default.
  cbn [bind result_monad ret].
  rewrite (H "requestContext"), (H "path"), (H "rawPath"),
    (H "pathParameters"), (H "body") by (cbn; tauto).
  rewrite H1, H2.
  destruct m1 as [| a1 m1], m2 as [| a2 m2]; try discriminate Hup; [reflexivity |].
  cbn [truthy Str.nonempty attr_upper]. rewrite Hup. reflexivity.
Qed.

(** X19: the two shapes of envelope are answered alike: one that names
    its method and path in the fields of the first protocol version, and one
    that names the same method under the request context and the same path as
    raw path, with the same path parameters and body. *)
Theorem envelope_shapes_agree {S} {T : Table S} d1 d2 m p ctx http context (w : world S) :
  m <> EmptyString ->
  p <> EmptyString ->
  dict_get "httpMethod" d1 = Some (PStr m) ->
  dict_get "path" d1 = Some (PStr p) ->
  dict_get "httpMethod" d2 = None ->
  dict_get "path" d2 = None ->
  dict_get "requestContext" d2 = Some (PDict ctx) ->
  dict_get "http" ctx = Some (PDict http) ->
  dict_get "method" http = Some (PStr m) ->
  dict_get "rawPath" d2 = Some (PStr p) ->
  dict_get "pathParameters" d1 = dict_get "pathParameters" d2 ->
  dict_get "body" d1 = dict_get "body" d2 ->
  lambda_handler (PDict d1) context w = lambda_handler (PDict d2) context w.
Proof.
  intros Hm Hp H1m H1p H2m H2p H2c Hc Hh H2r Hpp Hb. apply handler_ext.
  unfold _parse_event, path_param_id, attr_get, attr_get_default, get_default.
  cbn [bind result_monad ret].
  rewrite H1m, H1p, H2m, H2p, H2c, H2r, Hpp, Hb.
  cbn [truthy bind result_monad ret]. rewrite Hc. cbn [bind result_monad ret].
  rewrite Hh. unfold py_or.
  destruct m as [| a m]; [contradiction |]. destruct p as [| b p]; [contradiction |].
  reflexivity.
Qed.

(** X20: when the fields of the first protocol version name a method and
    a path, these are the method (in capitals) and the path of the request,
    whatever the request context and the raw path say. *)
Theorem legacy_fields_first d m p method path item_id body :
  m <> EmptyString ->
  p <> EmptyString ->
  dict_get "httpMethod" d = Some (PStr m) ->
  dict_get "path" d = Some (PStr p) ->
  _parse_event (PDict d) = Ok (method, path, item_id, body) ->
  method = Str.upper m /\ path = PStr p.
Proof.
  intros Hm Hp Hdm Hdp.
  unfold _parse_event, attr_get, attr_get_default, get_default.
  cbn [bind result_monad ret]. rewrite Hdm, Hdp.
  destruct m as [| a m]; [contradiction |]. destruct p as [| b p]; [contradiction |].
  cbn [truthy Str.nonempty attr_upper bind result_monad ret].
  intros H.
  repeat match type of H with
         | context [match ?x with Ok _ => _ | Raise _ => _ end] =>
             destruct x; [| discriminate]
         end.
  injection H as <- <- _ _. split; reflexivity.
Qed.

(** ** The validator and the update *)

(** X21: the validator accepts a payload exactly when [id], [description]
    and [date] are all present with string values; further fields and the
    order of the fields play no part. *)
Theorem validator_accepts payload :
  _validate_item_payload payload = None <->
  (forall k, In k ["id"; "description"; "date"] ->
             exists s, dict_get k payload = Some (PStr s)).
Proof.
  rewrite validate_refines_spec.
  unfold spec_validate, wrong_type, dict_mem, get, get_default. split.
  - intros H k Hk.
    destruct (dict_get "id" payload) as [[] |] eqn:Hi; try discriminate;
      destruct (dict_get "description" payload) as [[] |] eqn:Hd; try discriminate;
      destruct (dict_get "date" payload) as [[] |] eqn:Ht; try discriminate.
    cbn in Hk. destruct Hk as [<- | [<- | [<- | []]]]; eauto.
  - intros H.
    destruct (H "id") as [i Hi]; [cbn; tauto |].
    destruct (H "description") as [d Hd]; [cbn; tauto |].
    destruct (H "date") as [t Ht]; [cbn; tauto |].
    rewrite Hi, Hd, Ht. reflexivity.
Qed.

(** X22: an update reads [description] and [date] of its payload and
    nothing else: two updates of the same identifier whose payloads agree on
    these two fields are answered alike and do the same to the table,
    whatever else the payloads hold, an [id] included. *)
Theorem put_reads_two_fields {S} {T : Table S} e1 e2 context path1 path2 item_id
    payload1 payload2 (w : world S) :
  _parse_event e1 = Ok ("PUT", path1, item_id, PDict payload1) ->
  _parse_event e2 = Ok ("PUT", path2, item_id, PDict payload2) ->
  get "description" payload1 = get "description" payload2 ->
  get "date" payload1 = get "date" payload2 ->
  lambda_handler e1 context w = lambda_handler e2 context w.
Proof.
  intros H1 H2 Hd Ht. rewrite !handler_of_dispatch.
  rewrite (dispatch_put _ _ _ _ _ H1), (dispatch_put _ _ _ _ _ H2).
  unfold put_call. rewrite Hd, Ht. reflexivity.
Qed.

(** ** The handler over the reference table *)

Lemma key_of_id v : MemTable.key_of (PDict [("id", v)]) = MemTable.scalar v.
Proof. reflexivity. Qed.

Lemma lookup_remove_same k st : MemTable.lookup k (MemTable.remove k st) = None.
Proof.
  unfold MemTable.remove.
  induction st as [| [k1 it] st IH]; cbn [filter fst MemTable.lookup]; [reflexivity |].
  destruct (MemTable.key_eqb k k1) eqn:Hk; cbn [negb MemTable.lookup]; [exact IH |].
  rewrite Hk. exact IH.
Qed.

Lemma remove_absent k st : MemTable.lookup k st = None -> MemTable.remove k st = st.
Proof.
  unfold MemTable.remove.
  induction st as [| [k1 it] st IH]; cbn [filter fst MemTable.lookup]; [reflexivity |].
  destruct (MemTable.key_eqb k k1); [discriminate |].
  intros H. cbn [negb]. rewrite (IH H). reflexivity.
Qed.

Lemma run_delete v k st :
  MemTable.scalar v = Some k ->
  MemTable.run (delete_item (PDict [("id", v)])) st = (Ok (PDict []), MemTable.remove k st).
Proof. intros Hk. cbn [MemTable.run]. rewrite key_of_id, Hk. reflexivity. Qed.

Lemma run_get v k st :
  MemTable.scalar v = Some k ->
  MemTable.run (get_item (PDict [("id", v)])) st =
    (match MemTable.lookup k st with
     | Some item => Ok (PDict [("Item", PDict item)])
     | None => Ok (PDict [])
     end, st).
Proof.
  intros Hk. cbn [MemTable.run]. rewrite key_of_id, Hk.
  destruct (MemTable.lookup k st); reflexivity.
Qed.

Lemma run_read_only c st :
  match c with get_item _ | scan => True | _ => False end ->
  snd (MemTable.run c st) = st.
Proof.
  destruct c; try contradiction; intros _; cbn [MemTable.run]; [| reflexivity].
  destruct (MemTable.key_of Key); [| reflexivity].
  destruct (MemTable.lookup k st); reflexivity.
Qed.

(** The DELETE of a scalar identifier on the reference table. *)
Lemma delete_on_table del context path item_id payload k st cs :
  _parse_event del = Ok ("DELETE", path, item_id, PDict payload) ->
  truthy (py_or item_id (get "id" payload)) = true ->
  MemTable.scalar (py_or item_id (get "id" payload)) = Some k ->
  lambda_handler (T := MemTable.table) del context (World st cs) =
    (Ok (reply 200 "deleted"),
     World (MemTable.remove k st)
       (cs ++ [delete_item (PDict [("id", py_or item_id (get "id" payload))])])).
Proof.
  intros Hparse Ht Hk.
  rewrite handler_of_dispatch, (dispatch_delete _ _ _ _ _ Hparse). cbv zeta.
  rewrite Ht. cbn [negb].
  erewrite guarded_return
    by (cbn [store invoke MemTable.table]; rewrite (run_delete _ _ _ Hk); reflexivity).
  unfold sent. cbn [store calls invoke MemTable.table]. rewrite (run_delete _ _ _ Hk).
  reflexivity.
Qed.

(** X23: on the reference table, a GET of an identifier that a DELETE has
    just removed is answered 404, and the DELETE itself is answered 200
    whether or not the item was there. *)
Theorem delete_then_get del lookup_req context path path' item_id payload body' k st :
  _parse_event del = Ok ("DELETE", path, item_id, PDict payload) ->
  truthy (py_or item_id (get "id" payload)) = true ->
  MemTable.scalar (py_or item_id (get "id" payload)) = Some k ->
  _parse_event lookup_req
    = Ok ("GET", path', py_or item_id (get "id" payload), PDict body') ->
  let x := lambda_handler (T := MemTable.table) del context (World st []) in
  let y := lambda_handler (T := MemTable.table) lookup_req context
             (World (store (after x)) []) in
  outcome x = Ok (reply 200 "deleted") /\
  outcome y = Ok (reply 404 "not found").
Proof.
  intros Hdel Ht Hk Hget x y. subst x y.
  rewrite (delete_on_table _ _ _ _ _ _ _ _ Hdel Ht Hk).
  cbn [outcome after fst snd store]. split; [reflexivity |].
  rewrite handler_of_dispatch, (dispatch_get _ _ _ _ _ Hget), Ht.
  erewrite guarded_return
    by (cbn [store invoke MemTable.table]; rewrite (run_get _ _ _ Hk), lookup_remove_same;
        reflexivity).
  reflexivity.
Qed.

(** X24: on the reference table a DELETE can be repeated: the second one
    is answered 200 like the first and changes nothing, and the DELETE of an
    identifier that is not in the table leaves the table as it was. *)
Theorem delete_twice del context path item_id payload k st :
  _parse_event del = Ok ("DELETE", path, item_id, PDict payload) ->
  truthy (py_or item_id (get "id" payload)) = true ->
  MemTable.scalar (py_or item_id (get "id" payload)) = Some k ->
  let x := lambda_handler (T := MemTable.table) del context (World st []) in
  let y := lambda_handler (T := MemTable.table) del context (World (store (after x)) []) in
  outcome x = Ok (reply 200 "deleted") /\
  outcome y = Ok (reply 200 "deleted") /\
  store (after y) = store (after x) /\
  (MemTable.lookup k st = None -> store (after x) = st).
Proof.
  intros Hdel Ht Hk x y. subst x y.
  rewrite (delete_on_table _ _ _ _ _ _ _ _ Hdel Ht Hk).
  cbn [outcome after fst snd store].
  rewrite (delete_on_table _ _ _ _ _ _ _ _ Hdel Ht Hk).
  cbn [fst snd store].
  repeat split.
  - apply remove_absent, lookup_remove_same.
  - apply remove_absent.
Qed.

(** X25: on the reference table a GET or an OPTIONS request leaves every
    item as it was, whatever its identifier and payload. *)
Theorem reads_leave_table event context method path item_id body st cs :
  _parse_event event = Ok (method, path, item_id, body) ->
  In method ["GET"; "OPTIONS"] ->
  store (after (lambda_handler (T := MemTable.table) event context (World st cs))) = st.
Proof.
  intros Hparse Hm. rewrite after_handler.
  destruct body as [| | | | | | payload |];
    try (unfold dispatch; cbn [bind M_monad lift]; rewrite Hparse; reflexivity).
  destruct (planned_call method item_id payload) as [c |] eqn:Hplan.
  - destruct (dispatch_call (T := MemTable.table) _ _ _ _ _ c (World st cs) Hparse Hplan)
      as (k & Hk & ->).
    rewrite after_guarded; [| exact Hk | apply silent_respond].
    unfold sent. cbn [store invoke MemTable.table]. apply run_read_only.
    cbn in Hm. destruct Hm as [<- | [<- | []]]; [| discriminate].
    unfold planned_call in Hplan. cbn in Hplan. injection Hplan as <-.
    destruct (truthy item_id); exact I.
  - rewrite (dispatch_quiet (T := MemTable.table) _ _ _ _ _ _ Hparse Hplan). reflexivity.
Qed.

Lemma forallb_filter {A} (f g : A -> bool) l :
  forallb f l = true -> forallb f (filter g l) = true.
Proof.
  induction l as [| a l IH]; cbn; [reflexivity |].
  intros H. apply andb_true_iff in H. destruct H as [Ha Hl].
  destruct (g a); cbn; [rewrite Ha |]; auto.
Qed.

Lemma listed_serializable (st : MemTable.state) :
  forallb serializable (map (fun e => PDict (snd e)) st)
  = forallb (fun e => all_serializable (snd e)) st.
Proof. induction st as [| e st IH]; cbn; [reflexivity |]. rewrite IH. reflexivity. Qed.

Lemma validate_none_id payload :
  _validate_item_payload payload = None ->
  exists i, dict_get "id" payload = Some (PStr i).
Proof.
  rewrite validate_refines_spec.
  unfold spec_validate, wrong_type, dict_mem, get, get_default.
  intros H.
  destruct (dict_get "id" payload) as [v |];
    [destruct v; try (eexists; reflexivity) |];
    destruct (dict_get "description" payload), (dict_get "date" payload);
    cbn in H; discriminate.
Qed.

Lemma dict_set_truthy k v d : truthy (PDict (dict_set k v d)) = true.
Proof.
  destruct d as [| [k' v'] r]; cbn [dict_set]; [reflexivity |].
  destruct (String.eqb k k'); reflexivity.
Qed.

(** The accepted create on the reference table. *)
Lemma post_on_table post context path item_id payload i st cs :
  _parse_event post = Ok ("POST", path, item_id, PDict payload) ->
  truthy item_id = false ->
  _validate_item_payload payload = None ->
  dict_get "id" payload = Some (PStr i) ->
  lambda_handler (T := MemTable.table) post context (World st cs) =
    (Ok (reply 201 "created"),
     World ((MemTable.KS i, payload) :: MemTable.remove (MemTable.KS i) st)
       (cs ++ [put_item (PDict payload)])).
Proof.
  intros Hparse Hid Hvalid Hi.
  assert (Hrun : MemTable.run (put_item (PDict payload)) st
                 = (Ok (PDict []), (MemTable.KS i, payload) :: MemTable.remove (MemTable.KS i) st)).
  { cbn [MemTable.run]. unfold get, get_default. rewrite Hi. reflexivity. }
  rewrite handler_of_dispatch, (dispatch_post _ _ _ _ _ Hparse), Hid, Hvalid.
  erewrite guarded_return by (cbn [store invoke MemTable.table]; rewrite Hrun; reflexivity).
  unfold sent. cbn [store calls invoke MemTable.table]. rewrite Hrun. reflexivity.
Qed.

(** X26: on the reference table, the list that a GET without identifier
    returns after an accepted create holds the created item as it was
    received. *)
Theorem create_then_list post lister context path path' item_id item_id' payload body' st :
  _parse_event post = Ok ("POST", path, item_id, PDict payload) ->
  truthy item_id = false ->
  _validate_item_payload payload = None ->
  serializable post = true ->
  forallb (fun e => all_serializable (snd e)) st = true ->
  _parse_event lister = Ok ("GET", path', item_id', PDict body') ->
  truthy item_id' = false ->
  let x := lambda_handler (T := MemTable.table) post context (World st []) in
  let y := lambda_handler (T := MemTable.table) lister context (World (store (after x)) []) in
  outcome x = Ok (reply 201 "created") /\
  exists items,
    outcome y = Ok (Response 200 CORS_HEADERS (JsonText (PList items))) /\
    In (PDict payload) items.
Proof.
  intros Hpost Hid Hvalid Hjson Hst Hlist Hid' x y. subst x y.
  destruct (validate_none_id _ Hvalid) as [i Hi].
  pose proof (parse_event_payload_serializable _ _ _ _ _ Hjson Hpost) as Hser.
  rewrite (post_on_table _ _ _ _ _ _ _ _ Hpost Hid Hvalid Hi).
  cbn [outcome after fst snd store]. split; [reflexivity |].
  exists (PDict payload :: map (fun e => PDict (snd e)) (MemTable.remove (MemTable.KS i) st)).
  split; [| left; reflexivity].
  rewrite handler_of_dispatch, (dispatch_get _ _ _ _ _ Hlist), Hid'.
  erewrite guarded_return by (cbn [store invoke MemTable.table MemTable.run fst]; reflexivity).
  cbn [bind M_monad lift attr_get_default get_default dict_get String.eqb Ascii.eqb Bool.eqb
       map snd].
  assert (Hall : serializable
                   (PList (PDict payload
                             :: map (fun e => PDict (snd e))
                                  (MemTable.remove (MemTable.KS i) st))) = true).
  { change (serializable (PList ?l)) with (forallb serializable l).
    cbn [forallb]. rewrite Hser, listed_serializable. unfold MemTable.remove.
    rewrite (forallb_filter _ _ _ Hst). reflexivity. }
  unfold respond, lift, _response, json_dumps. rewrite Hall. reflexivity.
Qed.

(** X27: on the reference table, a GET of an identifier after a PUT of
    the same identifier returns the item with the [description] and [date]
    of the PUT payload ([None] for an omitted one) and with every other
    attribute as it was before the PUT. *)
Theorem update_then_get put lookup_req context path path' item_id payload body' k old st :
  _parse_event put = Ok ("PUT", path, item_id, PDict payload) ->
  truthy item_id = true ->
  MemTable.scalar item_id = Some k ->
  MemTable.lookup k st = Some old ->
  all_serializable old = true ->
  serializable put = true ->
  _parse_event lookup_req = Ok ("GET", path', item_id, PDict body') ->
  let x := lambda_handler (T := MemTable.table) put context (World st []) in
  let y := lambda_handler (T := MemTable.table) lookup_req context
             (World (store (after x)) []) in
  outcome x = Ok (reply 200 "updated") /\
  exists new,
    outcome y = Ok (Response 200 CORS_HEADERS (JsonText (PDict new))) /\
    dict_get "description" new = Some (get "description" payload) /\
    dict_get "date" new = Some (get "date" payload) /\
    (forall a, a <> "description" -> a <> "date" -> dict_get a new = dict_get a old).
Proof.
  intros Hput Hid Hk Hold Hser Hjson Hget x y. subst x y.
  pose proof (parse_event_payload_serializable _ _ _ _ _ Hjson Hput) as Hpay.
  change (serializable (PDict payload)) with (all_serializable payload) in Hpay.
  set (new := dict_set "date" (get "date" payload)
                (dict_set "description" (get "description" payload) old)).
  assert (Hrun : MemTable.run (put_call item_id payload) st
                 = (Ok (PDict []), MemTable.modify k (fun _ => new) st)).
  { rewrite (run_put_call _ _ _ _ Hk). unfold MemTable.update. rewrite Hold.
    f_equal. clear - Hold. induction st as [| [k1 it] st IH]; [discriminate |].
    cbn [MemTable.lookup MemTable.modify] in *.
    destruct (MemTable.key_eqb k k1).
    - injection Hold as ->. reflexivity.
    - rewrite (IH Hold). reflexivity. }
  assert (Hx : lambda_handler (T := MemTable.table) put context (World st [])
               = (Ok (reply 200 "updated"),
                  World (MemTable.modify k (fun _ => new) st) [put_call item_id payload])).
  { rewrite handler_of_dispatch, (dispatch_put _ _ _ _ _ Hput), Hid. cbn [negb].
    erewrite guarded_return by (cbn [store invoke MemTable.table]; rewrite Hrun; reflexivity).
    unfold sent. cbn [store calls invoke MemTable.table]. rewrite Hrun. reflexivity. }
  rewrite Hx. cbn [outcome after fst snd store]. split; [reflexivity |].
  exists new. split.
  - rewrite handler_of_dispatch, (dispatch_get _ _ _ _ _ Hget), Hid.
    erewrite guarded_return
      by (cbn [store invoke MemTable.table];
          rewrite (run_get _ _ _ Hk), (lookup_modify_same _ _ _ _ Hold); reflexivity).
    cbn [bind M_monad lift attr_get attr_get_default get_default dict_get String.eqb Ascii.eqb
         Bool.eqb].
    assert (Hne : truthy (PDict new) = true).
    { unfold new. apply dict_set_truthy. }
    rewrite Hne. cbn [negb]. unfold respond, lift, _response, json_dumps.
    change (serializable (PDict new)) with (all_serializable new).
    assert (Hnew : all_serializable new = true).
    { unfold new. repeat apply dict_set_serializable; try assumption;
        apply get_default_serializable; try assumption; reflexivity. }
    rewrite Hnew. reflexivity.
  - unfold new. repeat split.
    + rewrite !dict_get_set. reflexivity.
    + rewrite !dict_get_set. reflexivity.
    + intros a Hd Ht. rewrite !dict_get_set.
      destruct (String.eqb_spec a "date"); [contradiction |].
      destruct (String.eqb_spec a "description"); [contradiction |].
      reflexivity.
Qed.

(** ** The further properties at concrete requests *)

Ltac first_by_computation H :=
  cbv zeta;
  match goal with
  | |- ?A /\ _ => assert (H : A) by (vm_compute; reflexivity)
  end;
  split; [exact H |].

Lemma the_call_sent_witness :
  let event := request "PUT" "/Items/a1" (PStr (json_text "{'description': 'tea'}")) in
  _parse_event event
    = Ok ("PUT", PStr "/Items/a1", PStr "a1", PDict [("description", PStr "tea")]) /\
  after (lambda_handler (T := accepting) event PNone (World tt []))
    = World tt [put_call (PStr "a1") [("description", PStr "tea")]].
Proof.
  first_by_computation Hparse.
  exact (the_call_sent (T := accepting) _ PNone _ _ _ _ (World tt []) Hparse).
Defined.

Lemma table_failure_is_500_witness :
  let event := request "DELETE" "/Items/a1" PNone in
  _parse_event event = Ok ("DELETE", PStr "/Items/a1", PStr "a1", PDict []) /\
  lambda_handler (T := failing ClientError) event PNone (World tt [])
    = (Ok (reply 500 "internal error"), World tt [delete_item (PDict [("id", PStr "a1")])]).
Proof.
  first_by_computation Hparse.
  exact (table_failure_is_500 (T := failing ClientError) _ PNone _ _ _ _
           (delete_item (PDict [("id", PStr "a1")])) ClientError (World tt [])
           Hparse eq_refl eq_refl eq_refl).
Defined.

Lemma post_with_identifier_witness :
  let event := request "POST" "/Items/a1"
                 (PStr (json_text "{'id':'a1','description':'d','date':'t'}")) in
  _parse_event event
    = Ok ("POST", PStr "/Items/a1", PStr "a1",
          PDict [("id", PStr "a1"); ("description", PStr "d"); ("date", PStr "t")]) /\
  lambda_handler (T := accepting) event PNone (World tt [])
    = (Ok (reply 400 "POST ではパスに id を含めないでください"), World tt []).
Proof.
  first_by_computation Hparse.
  exact (post_with_identifier (T := accepting) _ PNone _ _ _ (World tt []) Hparse eq_refl).
Defined.

Lemma put_without_identifier_witness :
  let event := request "PUT" "/Items" (PStr (json_text "{'id':'a1','description':'d'}")) in
  _parse_event event
    = Ok ("PUT", PStr "/Items", PNone, PDict [("id", PStr "a1"); ("description", PStr "d")]) /\
  lambda_handler (T := accepting) event PNone (World tt [])
    = (Ok (reply 400 "id が必要です"), World tt []).
Proof.
  first_by_computation Hparse.
  exact (put_without_identifier (T := accepting) _ PNone _ _ _ (World tt []) Hparse eq_refl).
Defined.

Lemma unsupported_method_witness :
  let event := request "patch" "/Items/a1" PNone in
  _parse_event event = Ok ("PATCH", PStr "/Items/a1", PStr "a1", PDict []) /\
  lambda_handler (T := accepting) event PNone (World tt [])
    = (Ok (reply 405 "unsupported"), World tt []).
Proof.
  first_by_computation Hparse.
  assert (Hnot : ~ In "PATCH" ["OPTIONS"; "GET"; "POST"; "PUT"; "DELETE"]).
  { cbn. intros [H | [H | [H | [H | [H | []]]]]]; discriminate H. }
  exact (unsupported_method (T := accepting) _ PNone _ _ _ _ (World tt []) Hparse Hnot).
Defined.

Lemma get_by_id_witness :
  let event := request "GET" "/Items/a1" PNone in
  let item := [("id", PStr "a1"); ("description", PStr "milk")] in
  let st := [(MemTable.KS "a1", item)] in
  _parse_event event = Ok ("GET", PStr "/Items/a1", PStr "a1", PDict []) /\
  lambda_handler (T := MemTable.table) event PNone (World st [])
    = (Ok (Response 200 CORS_HEADERS (JsonText (PDict item))),
       World st [get_item (PDict [("id", PStr "a1")])]) /\
  lambda_handler (T := MemTable.table) event PNone (World [] [])
    = (Ok (reply 404 "not found"), World [] [get_item (PDict [("id", PStr "a1")])]).
Proof.
  first_by_computation Hparse.
  split.
  - exact (proj2 (get_by_id (T := MemTable.table) _ PNone _ _ _
                    (World [(MemTable.KS "a1",
                             [("id", PStr "a1"); ("description", PStr "milk")])] [])
                    Hparse eq_refl)
             [("Item", PDict [("id", PStr "a1"); ("description", PStr "milk")])]
             [("id", PStr "a1"); ("description", PStr "milk")]
             eq_refl eq_refl ltac:(discriminate)).
  - exact (proj1 (get_by_id (T := MemTable.table) _ PNone _ _ _ (World [] []) Hparse eq_refl)
             [] eq_refl eq_refl).
Defined.

Lemma get_list_witness :
  let event := request "GET" "/Items" PNone in
  let st := [(MemTable.KS "a1", [("id", PStr "a1")])] in
  _parse_event event = Ok ("GET", PStr "/Items", PNone, PDict []) /\
  lambda_handler (T := MemTable.table) event PNone (World st [])
    = (Ok (Response 200 CORS_HEADERS (JsonText (PList [PDict [("id", PStr "a1")]]))),
       World st [scan]) /\
  lambda_handler (T := accepting) event PNone (World tt [])
    = (Ok (Response 200 CORS_HEADERS (JsonText (PList []))), World tt [scan]).
Proof.
  first_by_computation Hparse.
  split.
  - exact (proj1 (get_list (T := MemTable.table) _ PNone _ _ _
                    (World [(MemTable.KS "a1", [("id", PStr "a1")])] []) Hparse eq_refl)
             [("Items", PList [PDict [("id", PStr "a1")]])] [PDict [("id", PStr "a1")]]
             eq_refl eq_refl).
  - exact (proj2 (get_list (T := accepting) _ PNone _ _ _ (World tt []) Hparse eq_refl)
             [] eq_refl eq_refl).
Defined.

Lemma post_puts_payload_witness :
  let payload := [("id", PStr "a1"); ("description", PStr "d"); ("date", PStr "t");
                  ("shop", PStr "corner"); ("count", PInt 3)] in
  let event := request "POST" "/Items"
                 (PStr (json_text
                          "{'id':'a1','description':'d','date':'t','shop':'corner','count':3}")) in
  _parse_event event = Ok ("POST", PStr "/Items", PNone, PDict payload) /\
  lambda_handler (T := accepting) event PNone (World tt [])
    = (Ok (reply 201 "created"), World tt [put_item (PDict payload)]).
Proof.
  first_by_computation Hparse.
  exact (post_puts_payload (T := accepting) _ PNone _ _ _ (PDict []) (World tt [])
           Hparse eq_refl eq_refl eq_refl).
Defined.

Lemma invalid_json_body_witness :
  let event := request "DELETE" "/Items/a1" (PStr (json_text "{'id'")) in
  request_line event = Ok ("DELETE", PStr "/Items/a1", PStr "a1") /\
  lambda_handler (T := accepting) event PNone (World tt [])
    = (Ok (reply 400 "Invalid JSON in request body"), World tt []).
Proof.
  first_by_computation Hline.
  assert (Hne : json_text "{'id'" <> EmptyString) by (vm_compute; discriminate).
  exact (invalid_json_body (T := accepting) _ PNone _ _ _ (json_text "{'id'") (World tt [])
           Hline eq_refl Hne eq_refl).
Defined.

Lemma blank_body_is_invalid_witness :
  let event := request "GET" "/Items" (PStr "  ") in
  request_line event = Ok ("GET", PStr "/Items", PNone) /\
  lambda_handler (T := accepting) event PNone (World tt [])
    = (Ok (reply 400 "Invalid JSON in request body"), World tt []).
Proof.
  first_by_computation Hline.
  assert (Hne : "  " <> EmptyString) by discriminate.
  exact (blank_body_is_invalid (T := accepting) _ PNone _ _ _ "  " (World tt [])
           Hline eq_refl Hne eq_refl).
Defined.

Lemma body_resolution_witness :
  let structured := PDict [("id", PStr "a1")] in
  let event := request "DELETE" "/Items" structured in
  _parse_event event = Ok ("DELETE", PStr "/Items", PNone, structured) /\
  _parse_event (request "GET" "/Items" (PInt 0)) = Ok ("GET", PStr "/Items", PNone, PDict []) /\
  structured = structured.
Proof.
  first_by_computation Hparse.
  assert (Hzero : _parse_event (request "GET" "/Items" (PInt 0))
                  = Ok ("GET", PStr "/Items", PNone, PDict [])) by (vm_compute; reflexivity).
  split; [exact Hzero |].
  destruct (body_resolution (request "DELETE" "/Items" (PDict [("id", PStr "a1")]))
              "DELETE" (PStr "/Items") PNone (PDict [("id", PStr "a1")])
              (PDict [("id", PStr "a1")]) Hparse eq_refl) as (_ & Hsame & _).
  exact (Hsame eq_refl eq_refl).
Defined.

Lemma payload_not_a_mapping_witness :
  let event := request "OPTIONS" "/Items" (PStr "[1, 2]") in
  _parse_event event = Ok ("OPTIONS", PStr "/Items", PNone, PList [PInt 1; PInt 2]) /\
  lambda_handler (T := accepting) event PNone (World tt [])
    = (Ok (reply 500 "internal error"), World tt []).
Proof.
  first_by_computation Hparse.
  assert (Hnot : forall d, PList [PInt 1; PInt 2] <> PDict d) by (intros d H; discriminate H).
  exact (payload_not_a_mapping (T := accepting) _ PNone _ _ _ _ (World tt []) Hparse Hnot).
Defined.

Lemma binding_wins_witness :
  let event := PDict [("httpMethod", PStr "GET"); ("path", PStr "/Items/from-the-path");
                      ("pathParameters", PDict [("id", PStr "b7")])] in
  _parse_event event = Ok ("GET", PStr "/Items/from-the-path", PStr "b7", PDict []) /\
  PStr "b7" = PStr "b7".
Proof.
  first_by_computation Hparse.
  exact (binding_wins _ _ _ _ _ (PStr "b7") Hparse eq_refl eq_refl).
Defined.

Lemma nested_identifier_witness :
  let event := request "GET" "/iTeMs/2024/a1" PNone in
  _parse_event event = Ok ("GET", PStr "/iTeMs/2024/a1", PStr "2024/a1", PDict []) /\
  PStr "2024/a1" = PStr (Str.join "/" ["2024"; "a1"]).
Proof.
  first_by_computation Hparse.
  assert (Hne : ["2024"; "a1"] <> []) by discriminate.
  assert (Hfree : Forall (fun s => slash_free s = true) ["2024"; "a1"])
    by (repeat constructor).
  assert (Hfull : Forall (fun s => Str.nonempty s = true) ["2024"; "a1"])
    by (repeat constructor).
  exact (nested_identifier (request "GET" "/iTeMs/2024/a1" PNone) "GET" (PStr "2024/a1")
           (PDict []) PNone "iTeMs" ["2024"; "a1"]
           Hparse eq_refl eq_refl eq_refl eq_refl Hne Hfree Hfull).
Defined.

Lemma other_fields_ignored_witness :
  let d1 := [("httpMethod", PStr "GET"); ("path", PStr "/Items");
             ("headers", PDict [("Authorization", PStr "Bearer x")]);
             ("queryStringParameters", PDict [("id", PStr "a1")])] in
  let d2 := [("path", PStr "/Items"); ("httpMethod", PStr "GET")] in
  lambda_handler (T := MemTable.table) (PDict d1) (PStr "context") (World [] [])
  = lambda_handler (T := MemTable.table) (PDict d2) PNone (World [] []).
Proof.
  cbv zeta.
  apply (other_fields_ignored (T := MemTable.table)).
  intros k Hk. cbn in Hk.
  destruct Hk as [<- | [<- | [<- | [<- | [<- | [<- | []]]]]]]; reflexivity.
Defined.

Lemma method_case_ignored_witness :
  let d1 := [("httpMethod", PStr "delete"); ("path", PStr "/Items/a1")] in
  let d2 := [("httpMethod", PStr "DeLeTe"); ("path", PStr "/Items/a1")] in
  lambda_handler (T := accepting) (PDict d1) PNone (World tt [])
  = lambda_handler (T := accepting) (PDict d2) PNone (World tt []).
Proof.
  cbv zeta.
  apply (method_case_ignored (T := accepting) _ _ "delete" "DeLeTe"); try reflexivity.
  intros k Hk. cbn in Hk.
  destruct Hk as [<- | [<- | [<- | [<- | [<- | []]]]]]; reflexivity.
Defined.

Lemma envelope_shapes_agree_witness :
  let d1 := [("httpMethod", PStr "GET"); ("path", PStr "/Items/a1");
             ("body", PStr "{}")] in
  let d2 := [("requestContext", PDict [("http", PDict [("method", PStr "GET")])]);
             ("rawPath", PStr "/Items/a1"); ("body", PStr "{}")] in
  lambda_handler (T := accepting) (PDict d1) PNone (World tt [])
  = lambda_handler (T := accepting) (PDict d2) PNone (World tt []).
Proof.
  cbv zeta.
  assert (Hm : "GET" <> EmptyString) by discriminate.
  assert (Hp : "/Items/a1" <> EmptyString) by discriminate.
  apply (envelope_shapes_agree (T := accepting) _ _ "GET" "/Items/a1"
           [("http", PDict [("method", PStr "GET")])] [("method", PStr "GET")]);
    try reflexivity; assumption.
Defined.

Lemma legacy_fields_first_witness :
  let d := [("httpMethod", PStr "get"); ("path", PStr "/Items");
            ("requestContext", PDict [("http", PDict [("method", PStr "POST")])]);
            ("rawPath", PStr "/Items/a1")] in
  _parse_event (PDict d) = Ok ("GET", PStr "/Items", PNone, PDict []) /\
  "GET" = Str.upper "get" /\ PStr "/Items" = PStr "/Items".
Proof.
  first_by_computation Hparse.
  assert (Hm : "get" <> EmptyString) by discriminate.
  assert (Hp : "/Items" <> EmptyString) by discriminate.
  match type of Hparse with
  | _parse_event (PDict ?d) = _ =>
      exact (legacy_fields_first d "get" "/Items" _ _ _ _ Hm Hp eq_refl eq_refl Hparse)
  end.
Defined.

Lemma put_reads_two_fields_witness :
  let e1 := request "PUT" "/Items/a1" (PStr (json_text "{'description':'d','id':'zz'}")) in
  let e2 := request "PUT" "/items/a1" (PStr (json_text "{'shop':'s','description':'d'}")) in
  _parse_event e1
    = Ok ("PUT", PStr "/Items/a1", PStr "a1",
          PDict [("description", PStr "d"); ("id", PStr "zz")]) /\
  _parse_event e2
    = Ok ("PUT", PStr "/items/a1", PStr "a1",
          PDict [("shop", PStr "s"); ("description", PStr "d")]) /\
  lambda_handler (T := MemTable.table) e1 PNone (World [] [])
  = lambda_handler (T := MemTable.table) e2 PNone (World [] []).
Proof.
  first_by_computation H1.
  match goal with
  | |- ?A /\ _ => assert (H2 : A) by (vm_compute; reflexivity)
  end.
  split; [exact H2 |].
  exact (put_reads_two_fields (T := MemTable.table) _ _ PNone _ _ _ _ _ (World [] [])
           H1 H2 eq_refl eq_refl).
Defined.

Lemma delete_then_get_witness :
  let del := request "DELETE" "/Items" (PStr (json_text "{'id': 'a1'}")) in
  let lookup_req := request "GET" "/Items/a1" PNone in
  let st := [(MemTable.KS "a1", [("id", PStr "a1")])] in
  let x := lambda_handler (T := MemTable.table) del PNone (World st []) in
  let y := lambda_handler (T := MemTable.table) lookup_req PNone
             (World (store (after x)) []) in
  _parse_event del = Ok ("DELETE", PStr "/Items", PNone, PDict [("id", PStr "a1")]) /\
  _parse_event lookup_req = Ok ("GET", PStr "/Items/a1", PStr "a1", PDict []) /\
  outcome x = Ok (reply 200 "deleted") /\
  outcome y = Ok (reply 404 "not found").
Proof.
  first_by_computation Hdel.
  match goal with
  | |- ?A /\ _ => assert (Hget : A) by (vm_compute; reflexivity)
  end.
  split; [exact Hget |].
  exact (delete_then_get _ _ PNone _ _ _ _ _ (MemTable.KS "a1")
           [(MemTable.KS "a1", [("id", PStr "a1")])] Hdel eq_refl eq_refl Hget).
Defined.

Lemma delete_twice_witness :
  let del := request "DELETE" "/Items/a1" PNone in
  let st := [(MemTable.KS "a1", [("id", PStr "a1")]); (MemTable.KS "b2", [("id", PStr "b2")])] in
  let x := lambda_handler (T := MemTable.table) del PNone (World st []) in
  let y := lambda_handler (T := MemTable.table) del PNone (World (store (after x)) []) in
  _parse_event del = Ok ("DELETE", PStr "/Items/a1", PStr "a1", PDict []) /\
  outcome x = Ok (reply 200 "deleted") /\
  outcome y = Ok (reply 200 "deleted") /\
  store (after y) = store (after x).
Proof.
  first_by_computation Hdel.
  destruct (delete_twice _ PNone _ _ _ (MemTable.KS "a1")
              [(MemTable.KS "a1", [("id", PStr "a1")]); (MemTable.KS "b2", [("id", PStr "b2")])]
              Hdel eq_refl eq_refl) as (Hx & Hy & Hsame & _).
  split; [exact Hx |]. split; [exact Hy | exact Hsame].
Defined.

Lemma reads_leave_table_witness :
  let event := request "GET" "/Items/a1" PNone in
  let st := [(MemTable.KS "a1", [("id", PStr "a1")])] in
  _parse_event event = Ok ("GET", PStr "/Items/a1", PStr "a1", PDict []) /\
  store (after (lambda_handler (T := MemTable.table) event PNone (World st []))) = st.
Proof.
  first_by_computation Hparse.
  assert (Hm : In "GET" ["GET"; "OPTIONS"]) by (left; reflexivity).
  exact (reads_leave_table _ PNone _ _ _ _ [(MemTable.KS "a1", [("id", PStr "a1")])] []
           Hparse Hm).
Defined.

Lemma create_then_list_witness :
  let payload := [("id", PStr "a1"); ("description", PStr "d"); ("date", PStr "t")] in
  let post := request "POST" "/Items"
                (PStr (json_text "{'id':'a1','description':'d','date':'t'}")) in
  let lister := request "GET" "/Items" PNone in
  let st := [(MemTable.KS "b2", [("id", PStr "b2")])] in
  let x := lambda_handler (T := MemTable.table) post PNone (World st []) in
  let y := lambda_handler (T := MemTable.table) lister PNone (World (store (after x)) []) in
  _parse_event post = Ok ("POST", PStr "/Items", PNone, PDict payload) /\
  _parse_event lister = Ok ("GET", PStr "/Items", PNone, PDict []) /\
  outcome x = Ok (reply 201 "created") /\
  exists items,
    outcome y = Ok (Response 200 CORS_HEADERS (JsonText (PList items))) /\
    In (PDict payload) items.
Proof.
  first_by_computation Hpost.
  match goal with
  | |- ?A /\ _ => assert (Hlist : A) by (vm_compute; reflexivity)
  end.
  split; [exact Hlist |].
  exact (create_then_list _ _ PNone _ _ _ _ _ _ [(MemTable.KS "b2", [("id", PStr "b2")])]
           Hpost eq_refl eq_refl eq_refl eq_refl Hlist eq_refl).
Defined.

Lemma update_then_get_witness :
  let put := request "PUT" "/Items/a1" (PStr (json_text "{'description': 'tea'}")) in
  let lookup_req := request "GET" "/Items/a1" PNone in
  let old := [("id", PStr "a1"); ("description", PStr "milk"); ("shop", PStr "corner")] in
  let st := [(MemTable.KS "a1", old)] in
  let x := lambda_handler (T := MemTable.table) put PNone (World st []) in
  let y := lambda_handler (T := MemTable.table) lookup_req PNone
             (World (store (after x)) []) in
  _parse_event put
    = Ok ("PUT", PStr "/Items/a1", PStr "a1", PDict [("description", PStr "tea")]) /\
  _parse_event lookup_req = Ok ("GET", PStr "/Items/a1", PStr "a1", PDict []) /\
  outcome x = Ok (reply 200 "updated") /\
  exists new,
    outcome y = Ok (Response 200 CORS_HEADERS (JsonText (PDict new))) /\
    dict_get "description" new = Some (PStr "tea") /\
    dict_get "date" new = Some PNone /\
    (forall a, a <> "description" -> a <> "date" -> dict_get a new = dict_get a old).
Proof.
  first_by_computation Hput.
  match goal with
  | |- ?A /\ _ => assert (Hget : A) by (vm_compute; reflexivity)
  end.
  split; [exact Hget |].
  exact (update_then_get _ _ PNone _ _ _ _ _ (MemTable.KS "a1")
           [("id", PStr "a1"); ("description", PStr "milk"); ("shop", PStr "corner")]
           [(MemTable.KS "a1",
             [("id", PStr "a1"); ("description", PStr "milk"); ("shop", PStr "corner")])]
           Hput eq_refl eq_refl eq_refl eq_refl eq_refl Hget).
Defined.

Lemma table_failure_at_boundary_witness :
  let event := request "GET" "/Items" PNone in
  let T := failing (ValueError "table credentials rejected") in
  _parse_event event = Ok ("GET", PStr "/Items", PNone, PDict []) /\
  lambda_handler (T := T) event PNone (World tt [])
    = (Ok (reply 400 "table credentials rejected"), World tt [scan]) /\
  lambda_handler (T := failing (OtherError "RuntimeError")) event PNone (World tt [])
    = (Ok (reply 500 "internal error"), World tt [scan]).
Proof.
  first_by_computation Hparse.
  split.
  - exact (table_failure_at_boundary (T := failing (ValueError "table credentials rejected"))
             _ PNone _ _ _ _ scan (ValueError "table credentials rejected") (World tt [])
             Hparse eq_refl eq_refl).
  - exact (table_failure_at_boundary (T := failing (OtherError "RuntimeError"))
             _ PNone _ _ _ _ scan (OtherError "RuntimeError") (World tt [])
             Hparse eq_refl eq_refl).
Defined.

